(** * The simulator's [run] command: one plan step, verified

    A shallow embedding of [x/programs/cmd/simulator/cmd/plan.go]: step
    loading ([Init]), validation ([Verify], [verifyEndpoint]), parameter
    resolution ([createCallParams]), dispatch ([runStepFunc]) and the
    orchestration around them ([RunStep], [Run]).

    Go values are modelled as the code has them: a [string] is a byte
    sequence ([String.string]), a [[]byte] is a [list byte], [int] and
    [uint64] are [Z] with the wrap-around written out, [map[int]ids.ID] is
    a [gmap Z ID], a nil pointer or nil slice is [None].  A Go function
    that returns [(T, error)] returns an [exec T]: a value, an error, or a
    run-time panic. *)

From Stdlib Require Import ZArith List Strings.String Strings.Ascii Strings.Byte Lia Bool.
From stdpp Require Import base option gmap strings.

Import ListNotations.
Local Open Scope Z_scope.

(** ** Go's standard library, as far as the command uses it *)

Module Go.

(** [len(s)] of a string, as a [nat]. *)
Definition len (s : string) : nat := String.length s.

(** [string(b)] and [[]byte(s)]: both keep the bytes. *)
Definition string_of_bytes (b : list byte) : string := string_of_list_byte b.
Definition bytes_of_string (s : string) : list byte := list_byte_of_string s.

(** [s[n:]]: the string without its first [n] bytes. *)
Fixpoint slice_from (n : nat) (s : string) : string :=
  match n, s with
  | O, _ => s
  | S _, EmptyString => EmptyString
  | S n', String _ s' => slice_from n' s'
  end.

(** [strings.HasPrefix(s, prefix)]. *)
Definition HasPrefix (s prefix : string) : bool := String.prefix prefix s.

(** [strings.CutPrefix(s, prefix)]: [s] without the leading [prefix] and
    [true], or [s] itself and [false]. *)
Definition CutPrefix (s prefix : string) : string * bool :=
  if HasPrefix s prefix then (slice_from (len prefix) s, true) else (s, false).

(** The two causes a [*strconv.NumError] carries. *)
Inductive NumErr := ErrSyntax | ErrRange.

Definition maxUint64 : Z := 2 ^ 64 - 1.
Definition wrap_uint64 (x : Z) : Z := x mod 2 ^ 64.
(** [int] is 64 bits wide on the platforms the simulator targets. *)
Definition maxInt : Z := 2 ^ 63 - 1.
Definition wrap_int (x : Z) : Z := (x + 2 ^ 63) mod 2 ^ 64 - 2 ^ 63.

(** The digit loop of [strconv.ParseUint] at base 10: [n] is the value
    read so far, [maxVal] the largest value of the bit size.  A letter
    is a digit of a larger base and a syntax error here, like any other
    byte; the loop stops at the first overflow, before it looks at the
    bytes that follow. *)
Fixpoint ParseUint_loop (maxVal n : Z) (s : string) : Z * option NumErr :=
  match s with
  | EmptyString => (n, None)
  | String c s' =>
      let b := Z.of_N (N_of_ascii c) in
      if (48 <=? b) && (b <=? 57) then
        let d := b - 48 in
        let cutoff := maxUint64 / 10 + 1 in
        if cutoff <=? n then (maxVal, Some ErrRange)
        else
          let n10 := wrap_uint64 (n * 10) in
          let n1 := wrap_uint64 (n10 + d) in
          if (n1 <? n10) || (maxVal <? n1) then (maxVal, Some ErrRange)
          else ParseUint_loop maxVal n1 s'
      else (0, Some ErrSyntax)
  end.

(** [strconv.ParseUint(s, 10, bitSize)] for [0 < bitSize <= 64]. *)
Definition ParseUint10 (s : string) (bitSize : Z) : Z * option NumErr :=
  match s with
  | EmptyString => (0, Some ErrSyntax)
  | _ => ParseUint_loop (2 ^ bitSize - 1) 0 s
  end.

(** [strconv.ParseInt(s, 10, bitSize)]: an optional sign, then
    [ParseUint]; a syntax error is returned at once, a range error of
    the unsigned parse falls through to the signed range check. *)
Definition ParseInt10 (s : string) (bitSize : Z) : Z * option NumErr :=
  match s with
  | EmptyString => (0, Some ErrSyntax)
  | String c s' =>
      let neg := Ascii.eqb c "-"%char in
      let digits := if Ascii.eqb c "+"%char || neg then s' else s in
      match ParseUint10 digits bitSize with
      | (_, Some ErrSyntax) => (0, Some ErrSyntax)
      | (un, _) =>
          let cutoff := 2 ^ (bitSize - 1) in
          if negb neg && (cutoff <=? un) then (cutoff - 1, Some ErrRange)
          else if neg && (cutoff <? un) then (- cutoff, Some ErrRange)
          else (if neg then - un else un, None)
      end
  end.

(** [copy(dst, src)]: the first [min(len(dst), len(src))] elements of
    [dst] are overwritten. *)
Definition copy {A} (dst src : list A) : list A :=
  firstn (length dst) src ++ skipn (length src) dst.

End Go.

(** ** The step model *)

(** Modelled from the spec: [Endpoint], [Type], [Parameter] and [Step] are
    declared outside [plan.go]; the constants and fields are the ones
    [plan.go] names, the shapes those of the spec's data model.

    [type Endpoint string]: the three endpoints the command knows, and any
    other text a plan may carry (the [default] cases of the switches). *)
Inductive Endpoint :=
| EndpointKey
| EndpointExecute
| EndpointReadOnly
| EndpointOther (name : string).

(** [type Type string]: the parameter types, and any other text. *)
Module ParamType.
Inductive t :=
| String
| Bool
| ID
| KeyEd25519
| KeySecp256k1
| Uint64
| Other (name : string).

Definition eqb (a b : t) : bool :=
  match a, b with
  | String, String | Bool, Bool | ID, ID | KeyEd25519, KeyEd25519
  | KeySecp256k1, KeySecp256k1 | Uint64, Uint64 => true
  | Other x, Other y => String.eqb x y
  | _, _ => false
  end.
End ParamType.

(** [type Parameter struct]; the name is a reserved word here. *)
Record Param := {
  Param_Type : ParamType.t;
  Param_Value : list byte }.

(** [Step.Params] is a slice: [None] is the nil slice of a plan without a
    [params] field, [Some []] the empty slice of [params: []]. *)
Record Step := {
  Step_Endpoint : Endpoint;
  Step_Method : string;
  Step_MaxUnits : Z;
  Step_Params : option (list Param) }.

(** [ids.ID] is 32 bytes; [ed25519.PublicKey] is a byte array too. *)
Definition ID := list byte.
Definition PublicKey := list byte.

(** ** Errors and panics *)

(** Modelled from the spec: the package's sentinel errors, declared
    outside [plan.go]; these are the ones [plan.go] wraps with [%w] or
    tests with [errors.Is]. *)
Inductive sentinel :=
| ErrInvalidPlan
| ErrInvalidStep
| ErrInvalidEndpoint
| ErrInvalidParamType
| ErrFirstParamRequiredID
| ErrFirstParamRequiredString
| ErrNamedKeyNotFound
| ErrDuplicateKeyName.

Definition sentinel_eqb (a b : sentinel) : bool :=
  match a, b with
  | ErrInvalidPlan, ErrInvalidPlan | ErrInvalidStep, ErrInvalidStep
  | ErrInvalidEndpoint, ErrInvalidEndpoint
  | ErrInvalidParamType, ErrInvalidParamType
  | ErrFirstParamRequiredID, ErrFirstParamRequiredID
  | ErrFirstParamRequiredString, ErrFirstParamRequiredString
  | ErrNamedKeyNotFound, ErrNamedKeyNotFound
  | ErrDuplicateKeyName, ErrDuplicateKeyName => true
  | _, _ => false
  end.

(** One constructor for each place of [plan.go] that makes an error, and
    one for the errors its collaborators hand back. *)
Inductive error :=
| NoPlanSource
    (* errors.New("please specify either a --plan or a --file flag") *)
| NoStepsFound
    (* fmt.Errorf("%w: %s", ErrInvalidPlan, "no steps found") *)
| NoParamsFound
    (* fmt.Errorf("%w: %s", ErrInvalidStep, "no params found") *)
| FirstParamKey (i : Z)
    (* "%w %d %w: expected ed25519 or secp256k1" *)
| FirstParam (i : Z) (required : sentinel)
    (* fmt.Errorf("%w %d %w: %w", ErrInvalidStep, i, ErrInvalidParamType, required) *)
| InvalidEndpoint (endpoint : Endpoint)
    (* fmt.Errorf("%w: %s", ErrInvalidEndpoint, endpoint) *)
| MultiResponse
    (* errors.New("multi response not supported") *)
| NumError (num : string) (cause : Go.NumErr)
    (* the *strconv.NumError of ParseInt *)
| FailedToMap (stepIDStr : string)
    (* fmt.Errorf("failed to map to id: %s", stepIDStr) *)
| PathNotExists
    (* errors.New("this path does not exists") *)
| NamedKeyNotFound (key : string)
    (* fmt.Errorf("%w: %s", ErrNamedKeyNotFound, key) *)
| InvalidParamType (t : ParamType.t)
    (* fmt.Errorf("%w: %s", ErrInvalidParamType, param.Type) *)
| External (wraps : list sentinel) (msg : string)
    (* an error of a collaborator, with the sentinels it wraps *).

(** [errors.Is(err, target)] for a sentinel target. *)
Definition errors_Is (err : error) (target : sentinel) : bool :=
  match err with
  | NoStepsFound => sentinel_eqb target ErrInvalidPlan
  | NoParamsFound => sentinel_eqb target ErrInvalidStep
  | FirstParamKey _ =>
      sentinel_eqb target ErrInvalidStep || sentinel_eqb target ErrInvalidParamType
  | FirstParam _ required =>
      sentinel_eqb target ErrInvalidStep || sentinel_eqb target ErrInvalidParamType
      || sentinel_eqb target required
  | InvalidEndpoint _ => sentinel_eqb target ErrInvalidEndpoint
  | NamedKeyNotFound _ => sentinel_eqb target ErrNamedKeyNotFound
  | InvalidParamType _ => sentinel_eqb target ErrInvalidParamType
  | External wraps _ => existsb (sentinel_eqb target) wraps
  | NoPlanSource | MultiResponse | NumError _ _ | FailedToMap _ | PathNotExists => false
  end.

Inductive panic :=
| IndexOutOfRange (index len : nat)
| NilDereference.

(** What a Go call that returns [(T, error)] can do. *)
Inductive exec (A : Type) :=
| Ok (a : A)
| Err (e : error)
| Panic (p : panic).
Arguments Ok {A} a.
Arguments Err {A} e.
Arguments Panic {A} p.

#[global] Instance exec_ret : MRet exec := fun A a => Ok a.
#[global] Instance exec_bind : MBind exec := fun A B k m =>
  match m with
  | Ok a => k a
  | Err e => Err e
  | Panic p => Panic p
  end.

(** What a call that mutates its arguments and returns leaves behind, or
    the panic it died of. *)
Inductive outcome (A : Type) :=
| Returns (a : A)
| Panics (p : panic).
Arguments Returns {A} a.
Arguments Panics {A} p.

(** [ids.ToID(bytes)]: the bytes themselves when there are 32 of them. *)
Definition ids_ToID (bytes : list byte) : error + ID :=
  if Nat.eqb (length bytes) 32 then inr bytes
  else inl (External [] "invalid hash length").

(** ** The response *)

(** Modelled from the spec: the [Response] type, its constructor
    [newResponse] and its setters are declared outside [plan.go].  A
    response holds the step index, an optional message, an optional
    generated identifier (as text), an optional single result payload, an
    optional balance, an optional error and a timestamp; each setter writes
    its own field. *)
Record Response := {
  Resp_ID : Z;
  Resp_Msg : option string;
  Resp_TxID : option string;
  Resp_Response : option (list byte);
  Resp_Balance : option Z;
  Resp_Error : option error;
  Resp_Timestamp : Z }.

Definition newResponse (id : Z) : Response :=
  {| Resp_ID := id; Resp_Msg := None; Resp_TxID := None; Resp_Response := None;
     Resp_Balance := None; Resp_Error := None; Resp_Timestamp := 0 |}.

Definition setMsg (r : Response) (msg : string) : Response :=
  {| Resp_ID := Resp_ID r; Resp_Msg := Some msg; Resp_TxID := Resp_TxID r;
     Resp_Response := Resp_Response r; Resp_Balance := Resp_Balance r;
     Resp_Error := Resp_Error r; Resp_Timestamp := Resp_Timestamp r |}.

Definition setTxID (r : Response) (id : string) : Response :=
  {| Resp_ID := Resp_ID r; Resp_Msg := Resp_Msg r; Resp_TxID := Some id;
     Resp_Response := Resp_Response r; Resp_Balance := Resp_Balance r;
     Resp_Error := Resp_Error r; Resp_Timestamp := Resp_Timestamp r |}.

Definition getTxID (r : Response) : option string := Resp_TxID r.

Definition setResponse (r : Response) (res : list byte) : Response :=
  {| Resp_ID := Resp_ID r; Resp_Msg := Resp_Msg r; Resp_TxID := Resp_TxID r;
     Resp_Response := Some res; Resp_Balance := Resp_Balance r;
     Resp_Error := Resp_Error r; Resp_Timestamp := Resp_Timestamp r |}.

Definition setBalance (r : Response) (balance : Z) : Response :=
  {| Resp_ID := Resp_ID r; Resp_Msg := Resp_Msg r; Resp_TxID := Resp_TxID r;
     Resp_Response := Resp_Response r; Resp_Balance := Some balance;
     Resp_Error := Resp_Error r; Resp_Timestamp := Resp_Timestamp r |}.

Definition setError (r : Response) (err : error) : Response :=
  {| Resp_ID := Resp_ID r; Resp_Msg := Resp_Msg r; Resp_TxID := Resp_TxID r;
     Resp_Response := Resp_Response r; Resp_Balance := Resp_Balance r;
     Resp_Error := Some err; Resp_Timestamp := Resp_Timestamp r |}.

Definition setTimestamp (r : Response) (t : Z) : Response :=
  {| Resp_ID := Resp_ID r; Resp_Msg := Resp_Msg r; Resp_TxID := Resp_TxID r;
     Resp_Response := Resp_Response r; Resp_Balance := Resp_Balance r;
     Resp_Error := Resp_Error r; Resp_Timestamp := t |}.

(** ** The collaborators *)

(** Everything [plan.go] calls and does not define.  [World] is the state
    they share: the key/value store [db], the file system and the clock.
    A Go [(T, error)] is a sum; [keyCreateFunc] keeps both components,
    since its caller reads the key next to a tolerated error. *)
Class Collaborators := {
  World : Type;
  (** the method name that creates a program *)
  ProgramCreate : string;
  (** [codec.AddressLen] *)
  AddressLen : nat;
  unmarshalStep : list byte -> error + Step;
  os_ReadFile : World -> string -> error + list byte;
  (** [errors.Is(err, os.ErrNotExist)] for the error of [os.Stat(path)] *)
  os_Stat_NotExist : World -> string -> bool;
  time_Now_Unix : World -> Z;
  (** [storage.GetPublicKey]: the stored key of a name, if there is one *)
  storage_GetPublicKey : World -> string -> error + option PublicKey;
  keyCreateFunc : World -> string -> World * (PublicKey * option error);
  programCreateFunc : World -> string -> World * (error + ID);
  (** [programExecuteFunc(ctx, log, db, id, params, method, maxUnits)]:
      the call's identifier, its result payloads (a payload can be nil)
      and the balance *)
  programExecuteFunc :
    World -> ID -> list Param -> string -> Z ->
    World * (error + (ID * list (option (list byte)) * Z));
  utils_Address : PublicKey -> string;
  (** [id.String()] and [ids.FromString] *)
  ID_String : ID -> string;
  ids_FromString : string -> error + ID }.

(** The same collaborators with another program interpreter. *)
Definition with_interpreter (C : Collaborators)
    (interpreter : @World C -> ID -> list Param -> string -> Z ->
                   @World C * (error + (ID * list (option (list byte)) * Z)))
    : Collaborators :=
  {| World := @World C;
     ProgramCreate := @ProgramCreate C;
     AddressLen := @AddressLen C;
     unmarshalStep := @unmarshalStep C;
     os_ReadFile := @os_ReadFile C;
     os_Stat_NotExist := @os_Stat_NotExist C;
     time_Now_Unix := @time_Now_Unix C;
     storage_GetPublicKey := @storage_GetPublicKey C;
     keyCreateFunc := @keyCreateFunc C;
     programCreateFunc := @programCreateFunc C;
     programExecuteFunc := interpreter;
     utils_Address := @utils_Address C;
     ID_String := @ID_String C;
     ids_FromString := @ids_FromString C |}.

(** ** The command *)

(** The fields of [runCmd] the step functions read and write; [lastStep]
    stands for the counter the pointer refers to, [step] is nil until
    [Init] has run. *)
Record runCmd := {
  lastStep : Z;
  file : option string;
  planStep : option string;
  step : option Step;
  programIDStrMap : gmap Z ID }.

(** [c.step = s]. *)
Definition with_step (c : runCmd) (s : option Step) : runCmd :=
  {| lastStep := lastStep c; file := file c; planStep := planStep c;
     step := s; programIDStrMap := programIDStrMap c |}.

(** The table of identifiers holds entries for earlier steps only. *)
Definition ledger_below (c : runCmd) : Prop :=
  forall (k : Z) (id : ID), programIDStrMap c !! k = Some id -> 0 <= k < lastStep c.

(** A flag is supplied when it points to a text that is not empty:
    [flag != nil && len( *flag) > 0]. *)
Definition supplied (flag : option string) : bool :=
  match flag with
  | Some text => Nat.ltb 0 (Go.len text)
  | None => false
  end.

Section Plan.
Context {collab : Collaborators}.

(** The steps that call a program: every ReadOnly step, and the Execute
    steps whose method is not the one that creates a program. *)
Definition is_call (endpoint : Endpoint) (method : string) : Prop :=
  endpoint = EndpointReadOnly
  \/ (endpoint = EndpointExecute /\ method <> ProgramCreate).

(** The budget [runStepFunc] hands to [programExecuteFunc]. *)
Definition call_budget (endpoint : Endpoint) (maxUnits : Z) : Z :=
  match endpoint with
  | EndpointReadOnly => Go.maxUint64
  | _ => maxUnits
  end.

(** [Init]: the plan text comes from the [--step] flag when it is set and
    not empty, else from the file of the [--file] flag; [c.step] takes
    what [unmarshalStep] returns (nil next to an error). *)
Definition Init (c : runCmd) (w : World) : outcome (runCmd * option error) :=
  let unmarshal (planStep_bytes : list byte) :=
    match unmarshalStep planStep_bytes with
    | inl err => Returns (with_step c None, Some err)
    | inr s => Returns (with_step c (Some s), None)
    end in
  let from_file :=
    match file c with
    | None => Panics NilDereference
    | Some f =>
        if Nat.ltb 0 (Go.len f) then
          match os_ReadFile w f with
          | inl err => Returns (c, Some err)
          | inr bytes => unmarshal bytes
          end
        else Returns (c, Some NoPlanSource)
    end in
  match planStep c with
  | Some p =>
      if Nat.ltb 0 (Go.len p) then unmarshal (Go.bytes_of_string p) else from_file
  | None => from_file
  end.

(** [verifyEndpoint]: the type of the first parameter against the
    endpoint; [step.Params[0]] is read before the switch. *)
Definition verifyEndpoint (i : Z) (s : Step) : exec unit :=
  match default [] (Step_Params s) with
  | [] => Panic (IndexOutOfRange 0 0)
  | p0 :: _ =>
      let firstParamType := Param_Type p0 in
      match Step_Endpoint s with
      | EndpointKey =>
          if negb (ParamType.eqb firstParamType ParamType.KeyEd25519)
             && negb (ParamType.eqb firstParamType ParamType.KeySecp256k1)
          then Err (FirstParamKey i) else Ok ()
      | EndpointReadOnly =>
          if negb (ParamType.eqb firstParamType ParamType.ID)
          then Err (FirstParam i ErrFirstParamRequiredID) else Ok ()
      | EndpointExecute =>
          if String.eqb (Step_Method s) ProgramCreate then
            if negb (ParamType.eqb (Param_Type p0) ParamType.String)
            then Err (FirstParam i ErrFirstParamRequiredString) else Ok ()
          else
            if negb (ParamType.eqb (Param_Type p0) ParamType.ID)
            then Err (FirstParam i ErrFirstParamRequiredID) else Ok ()
      | EndpointOther _ => Err (InvalidEndpoint (Step_Endpoint s))
      end
  end.

(** [Verify]: a step, with a [Params] slice that is not nil, that
    passes [verifyEndpoint]. *)
Definition Verify (c : runCmd) : exec unit :=
  match step c with
  | None => Err NoStepsFound
  | Some s =>
      match Step_Params s with
      | None => Err NoParamsFound
      | Some _ => verifyEndpoint (lastStep c) s
      end
  end.

(** The address of a stored public key, as [createCallParams] builds it:
    [make([]byte, codec.AddressLen)], the prefix byte 0 written at index
    0, the key copied behind it. *)
Definition key_address (pk : PublicKey) : exec (list byte) :=
  match repeat x00 AddressLen with
  | [] => Panic (IndexOutOfRange 0 0)
  | _ :: rest => Ok (x00 :: Go.copy rest pk)
  end.

(** The loop of [createCallParams]: [cp] is the slice built so far. *)
Fixpoint createCallParams_loop (c : runCmd) (db : World) (endpoint : Endpoint)
    (cp params : list Param) : exec (list Param) :=
  match params with
  | [] => Ok cp
  | param :: rest =>
      let next cp' := createCallParams_loop c db endpoint cp' rest in
      match Param_Type param with
      | ParamType.String | ParamType.ID =>
          let stepIDStr := Go.string_of_bytes (Param_Value param) in
          let '(idString, found) := Go.CutPrefix stepIDStr "step_" in
          if found then
            match Go.ParseInt10 idString 32 with
            | (_, Some cause) => Err (NumError idString cause)
            | (id, None) =>
                (* int(id): an int64 that fits 32 bits *)
                match programIDStrMap c !! id with
                | None => Err (FailedToMap stepIDStr)
                | Some programID =>
                    next (cp ++ [{| Param_Type := Param_Type param;
                                    Param_Value := programID |}])
                end
            end
          else
            match ids_ToID (Param_Value param) with
            | inr programID =>
                next (cp ++ [{| Param_Type := Param_Type param;
                                Param_Value := programID |}])
            | inl _ =>
                let path := Go.string_of_bytes (Param_Value param) in
                if os_Stat_NotExist db path then Err PathNotExists
                else next (cp ++ [param])
            end
      | ParamType.KeyEd25519 =>
          let key := Go.string_of_bytes (Param_Value param) in
          match storage_GetPublicKey db key with
          | inl err => Err err
          | inr None =>
              match endpoint with
              | EndpointKey =>
                  next (cp ++ [{| Param_Type := Param_Type param;
                                  Param_Value := Go.bytes_of_string key |}])
              | _ => Err (NamedKeyNotFound key)
              end
          | inr (Some pk) =>
              address ← key_address pk;
              let key := Go.string_of_bytes address in
              next (cp ++ [{| Param_Type := Param_Type param;
                              Param_Value := Go.bytes_of_string key |}])
          end
      | ParamType.Uint64 | ParamType.Bool => next (cp ++ [param])
      | ParamType.KeySecp256k1 | ParamType.Other _ =>
          Err (InvalidParamType (Param_Type param))
      end
  end.

Definition createCallParams (c : runCmd) (db : World) (params : list Param)
    (endpoint : Endpoint) : exec (list Param) :=
  createCallParams_loop c db endpoint [] params.

(** One turn of the loop, on its own: what a single parameter becomes.
    [createCallParams_loop_cons] shows that the loop does this to each
    parameter in turn. *)
Definition resolveParam (c : runCmd) (db : World) (endpoint : Endpoint)
    (param : Param) : exec Param :=
  let typed (value : list byte) :=
    Ok {| Param_Type := Param_Type param; Param_Value := value |} in
  match Param_Type param with
  | ParamType.String | ParamType.ID =>
      let stepIDStr := Go.string_of_bytes (Param_Value param) in
      let '(idString, found) := Go.CutPrefix stepIDStr "step_" in
      if found then
        match Go.ParseInt10 idString 32 with
        | (_, Some cause) => Err (NumError idString cause)
        | (id, None) =>
            match programIDStrMap c !! id with
            | None => Err (FailedToMap stepIDStr)
            | Some programID => typed programID
            end
        end
      else
        match ids_ToID (Param_Value param) with
        | inr programID => typed programID
        | inl _ =>
            if os_Stat_NotExist db (Go.string_of_bytes (Param_Value param))
            then Err PathNotExists else Ok param
        end
  | ParamType.KeyEd25519 =>
      let key := Go.string_of_bytes (Param_Value param) in
      match storage_GetPublicKey db key with
      | inl err => Err err
      | inr None =>
          match endpoint with
          | EndpointKey => typed (Go.bytes_of_string key)
          | _ => Err (NamedKeyNotFound key)
          end
      | inr (Some pk) =>
          address ← key_address pk;
          typed (Go.bytes_of_string (Go.string_of_bytes address))
      end
  | ParamType.Uint64 | ParamType.Bool => Ok param
  | ParamType.KeySecp256k1 | ParamType.Other _ =>
      Err (InvalidParamType (Param_Type param))
  end.

(** The switch of [runStepFunc], before the deferred [setTimestamp]. *)
Definition runStepFunc_switch (db : World) (endpoint : Endpoint) (maxUnits : Z)
    (method : string) (params : list Param) (resp : Response)
    : outcome (World * Response * option error) :=
  match endpoint with
  | EndpointKey =>
      match params with
      | [] => Panics (IndexOutOfRange 0 0)
      | p0 :: _ =>
          let keyName := Go.string_of_bytes (Param_Value p0) in
          let '(db', (key, err)) := keyCreateFunc db keyName in
          let created :=
            Returns (db', setMsg resp ("created named key with address "
                                       +:+ utils_Address key), None) in
          match err with
          | Some e =>
              if errors_Is e ErrDuplicateKeyName then created (* logged *)
              else Returns (db', resp, Some e)
          | None => created
          end
      end
  | EndpointExecute =>
      if String.eqb method ProgramCreate then
        match params with
        | [] => Panics (IndexOutOfRange 0 0)
        | p0 :: _ =>
            let programPath := Go.string_of_bytes (Param_Value p0) in
            match programCreateFunc db programPath with
            | (db', inl err) => Returns (db', resp, Some err)
            | (db', inr id) =>
                Returns (db', setTimestamp (setTxID resp (ID_String id))
                                           (time_Now_Unix db'), None)
            end
        end
      else
        match params with
        | [] => Panics (IndexOutOfRange 0 0)
        | p0 :: _ =>
            match ids_ToID (Param_Value p0) with
            | inl err => Returns (db, resp, Some err)
            | inr id =>
                match programExecuteFunc db id (skipn 1 params) method maxUnits with
                | (db', inl err) => Returns (db', resp, Some err)
                | (db', inr (id, response, balance)) =>
                    if Nat.ltb 1 (length response)
                    then Returns (db', resp, Some MultiResponse)
                    else
                      match response with
                      | [] => Panics (IndexOutOfRange 0 0)
                      | res :: _ =>
                          let resp :=
                            match res with
                            | Some r => setResponse resp r
                            | None => resp
                            end in
                          Returns (db', setBalance (setTxID resp (ID_String id)) balance,
                                   None)
                      end
                end
            end
        end
  | EndpointReadOnly =>
      match params with
      | [] => Panics (IndexOutOfRange 0 0)
      | p0 :: _ =>
          match ids_ToID (Param_Value p0) with
          | inl err => Returns (db, resp, Some err)
          | inr id =>
              match programExecuteFunc db id (skipn 1 params) method Go.maxUint64 with
              | (db', inl err) => Returns (db', resp, Some err)
              | (db', inr (_, response, _)) =>
                  if Nat.ltb 1 (length response)
                  then Returns (db', resp, Some MultiResponse)
                  else
                    match response with
                    | [] => Panics (IndexOutOfRange 0 0)
                    | res :: _ =>
                        let resp :=
                          match res with
                          | Some r => setResponse resp r
                          | None => resp
                          end in
                        Returns (db', resp, None)
                    end
              end
          end
      end
  | EndpointOther _ => Returns (db, resp, Some (InvalidEndpoint endpoint))
  end.

(** [runStepFunc]: the time is read when the [defer] statement runs, at
    entry, and stamped on the response when the function returns. *)
Definition runStepFunc (db : World) (endpoint : Endpoint) (maxUnits : Z)
    (method : string) (params : list Param) (resp : Response)
    : outcome (World * Response * option error) :=
  let now := time_Now_Unix db in
  match runStepFunc_switch db endpoint maxUnits method params resp with
  | Returns (db', resp', err) => Returns (db', setTimestamp resp' now, err)
  | Panics p => Panics p
  end.

(** What [RunStep] leaves behind: the command, the store, and the two
    values it returns. *)
Record ran := {
  ran_cmd : runCmd;
  ran_db : World;
  ran_resp : option Response;
  ran_err : option error }.

Definition RunStep (c : runCmd) (db : World) : outcome ran :=
  let index := lastStep c in
  match step c with
  | None => Panics NilDereference
  | Some s =>
      match createCallParams c db (default [] (Step_Params s)) (Step_Endpoint s) with
      | Panic p => Panics p
      | Err err =>
          Returns {| ran_cmd := c; ran_db := db;
                     ran_resp := Some (newResponse 0); ran_err := Some err |}
      | Ok params =>
          let resp := newResponse index in
          match runStepFunc db (Step_Endpoint s) (Step_MaxUnits s) (Step_Method s)
                            params resp with
          | Panics p => Panics p
          | Returns (db', resp, err) =>
              let resp := match err with
                          | Some e => setError resp e
                          | None => resp
                          end in
              let advance (ids : gmap Z ID) :=
                Returns {| ran_cmd := {| lastStep := Go.wrap_int (index + 1);
                                         file := file c; planStep := planStep c;
                                         step := step c; programIDStrMap := ids |};
                           ran_db := db'; ran_resp := Some resp; ran_err := None |} in
              match getTxID resp with
              | Some txID =>
                  match ids_FromString txID with
                  | inl err =>
                      Returns {| ran_cmd := c; ran_db := db';
                                 ran_resp := None; ran_err := Some err |}
                  | inr id => advance (<[index := id]> (programIDStrMap c))
                  end
              | None => advance (programIDStrMap c)
              end
          end
      end
  end.

(** [Run]: [Init], [Verify], [RunStep]; a failure of any of them returns
    [newResponse(0)] and the error. *)
Definition Run (c : runCmd) (db : World) : outcome ran :=
  match Init c db with
  | Panics p => Panics p
  | Returns (c1, Some err) =>
      Returns {| ran_cmd := c1; ran_db := db;
                 ran_resp := Some (newResponse 0); ran_err := Some err |}
  | Returns (c1, None) =>
      match Verify c1 with
      | Panic p => Panics p
      | Err err =>
          Returns {| ran_cmd := c1; ran_db := db;
                     ran_resp := Some (newResponse 0); ran_err := Some err |}
      | Ok _ =>
          match RunStep c1 db with
          | Panics p => Panics p
          | Returns r =>
              match ran_err r with
              | Some err =>
                  Returns {| ran_cmd := ran_cmd r; ran_db := ran_db r;
                             ran_resp := Some (newResponse 0); ran_err := Some err |}
              | None => Returns r
              end
          end
      end
  end.

End Plan.

(** ** A simulated world *)

(** Modelled from the spec: the collaborators of [plan.go] (the key store,
    the program loader, the program interpreter, the plan decoder, the
    file system and the clock) live in other packages.  This is one world
    that honours their contracts: [createNamedKey(store, name)] returns
    the key of the name, freshly generated or, next to the duplicate-name
    error, the stored one; [getPublicKey(store, name)] finds what was
    stored; the loader mints an identifier for a module file that exists;
    the interpreter runs a stored program.  The one program there is
    echoes its arguments, one result payload for each, and spends
    nothing. *)
Module Sim.

Record world := {
  keys : gmap string PublicKey;
  programs : list ID;
  files : list (string * string);
  minted : nat;
  now : Z }.

(** The [n]-th generated 32-byte value. *)
Definition mint (n : nat) : list byte :=
  repeat (byte_of_ascii (ascii_of_nat (65 + n))) 32.

Definition createNamedKey (w : world) (name : string)
    : world * (PublicKey * option error) :=
  match keys w !! name with
  | Some pk => (w, (pk, Some (External [ErrDuplicateKeyName] name)))
  | None =>
      let pk := mint (minted w) in
      ({| keys := <[name := pk]> (keys w); programs := programs w;
          files := files w; minted := S (minted w); now := now w + 1 |},
       (pk, None))
  end.

Definition getPublicKey (w : world) (name : string) : error + option PublicKey :=
  inr (keys w !! name).

Fixpoint find_file (fs : list (string * string)) (path : string) : option string :=
  match fs with
  | [] => None
  | (p, text) :: fs' => if String.eqb p path then Some text else find_file fs' path
  end.

Definition readFile (w : world) (path : string) : error + list byte :=
  match find_file (files w) path with
  | Some text => inr (Go.bytes_of_string text)
  | None => inl (External [] "no such file or directory")
  end.

Definition notExist (w : world) (path : string) : bool :=
  match find_file (files w) path with
  | Some _ => false
  | None => true
  end.

Definition create (w : world) (path : string) : world * (error + ID) :=
  match find_file (files w) path with
  | Some _ =>
      let id := mint (minted w) in
      ({| keys := keys w; programs := id :: programs w; files := files w;
          minted := S (minted w); now := now w + 1 |}, inr id)
  | None => (w, inl (External [] "no such file or directory"))
  end.

Definition invoke (w : world) (id : ID) (params : list Param) (method : string)
    (maxUnits : Z) : world * (error + (ID * list (option (list byte)) * Z)) :=
  if existsb (fun p => String.eqb (Go.string_of_bytes p) (Go.string_of_bytes id))
             (programs w)
  then ({| keys := keys w; programs := programs w; files := files w;
           minted := minted w; now := now w + 1 |},
        inr (id, map (fun p => Some (Param_Value p)) params, maxUnits))
  else (w, inl (External [] "unknown program")).

(** The plan texts the decoder of this world reads. *)
Definition key_alice : Step :=
  {| Step_Endpoint := EndpointKey; Step_Method := "create"; Step_MaxUnits := 0;
     Step_Params := Some [ {| Param_Type := ParamType.KeyEd25519;
                              Param_Value := Go.bytes_of_string "alice" |} ] |}.

Definition key_no_params : Step :=
  {| Step_Endpoint := EndpointKey; Step_Method := "create"; Step_MaxUnits := 0;
     Step_Params := None |}.

Definition key_empty_params : Step :=
  {| Step_Endpoint := EndpointKey; Step_Method := "create"; Step_MaxUnits := 0;
     Step_Params := Some [] |}.

Definition create_mod : Step :=
  {| Step_Endpoint := EndpointExecute; Step_Method := "program create";
     Step_MaxUnits := 0;
     Step_Params := Some [ {| Param_Type := ParamType.String;
                              Param_Value := Go.bytes_of_string "./mod.bin" |} ] |}.

Definition plans : list (string * Step) :=
  [ ("{endpoint: key, method: create, params: [{type: ed25519, value: alice}]}",
     key_alice);
    ("{endpoint: key, method: create}", key_no_params);
    ("{endpoint: key, method: create, params: []}", key_empty_params);
    ("{endpoint: execute, method: program create, params: [{type: string, value: ./mod.bin}]}",
     create_mod) ]%string.

Fixpoint find_plan (ps : list (string * Step)) (text : string) : option Step :=
  match ps with
  | [] => None
  | (t, s) :: ps' => if String.eqb t text then Some s else find_plan ps' text
  end.

Definition decode (bytes : list byte) : error + Step :=
  match find_plan plans (Go.string_of_bytes bytes) with
  | Some s => inr s
  | None => inl (External [] "cannot unmarshal the step")
  end.

#[global] Instance collab : Collaborators := {|
  World := world;
  ProgramCreate := "program create";
  AddressLen := 33;
  unmarshalStep := decode;
  os_ReadFile := readFile;
  os_Stat_NotExist := notExist;
  time_Now_Unix := now;
  storage_GetPublicKey := getPublicKey;
  keyCreateFunc := createNamedKey;
  programCreateFunc := create;
  programExecuteFunc := invoke;
  utils_Address := Go.string_of_bytes;
  ID_String := Go.string_of_bytes;
  ids_FromString := fun s => inr (Go.bytes_of_string s) |}.

(** A world with one module file and one plan file, and nothing stored. *)
Definition w0 : world :=
  {| keys := ∅; programs := [];
     files := [ ("./mod.bin", "wasm");
                ("./step.yaml", "{endpoint: key, method: create, params: [{type: ed25519, value: alice}]}") ]%string;
     minted := 0; now := 1700000000 |}.

(** The command as [New] leaves it: both flags are strings, nothing is
    loaded, the table of identifiers is empty. *)
Definition fresh (planStep_flag file_flag : string) : runCmd :=
  {| lastStep := 0; file := Some file_flag; planStep := Some planStep_flag;
     step := None; programIDStrMap := ∅ |}.

(** The world after the loader has created the program of [./mod.bin],
    and that program's identifier. *)
Definition w_prog : world := fst (create w0 "./mod.bin").
Definition prog : ID := mint 0.

Definition u64 (text : string) : Param :=
  {| Param_Type := ParamType.Uint64; Param_Value := Go.bytes_of_string text |}.

(** A call of the program with the arguments [args]. *)
Definition call (endpoint : Endpoint) (args : list Param) : Step :=
  {| Step_Endpoint := endpoint; Step_Method := "echo"; Step_MaxUnits := 1000;
     Step_Params :=
       Some ({| Param_Type := ParamType.ID; Param_Value := prog |} :: args) |}.

(** The command with [s] loaded as its second step, after the step that
    created the program. *)
Definition loaded (s : Step) : runCmd :=
  {| lastStep := 1; file := Some ""%string; planStep := Some ""%string;
     step := Some s; programIDStrMap := <[0 := prog]> ∅ |}.

End Sim.

(** ** Decimal numerals *)

(** The text of a decimal integer: the digits [ds], most significant
    first, each below ten, written with the characters 0 to 9. *)
Definition digit_char (d : nat) : ascii := ascii_of_nat (48 + d).

Fixpoint numeral (ds : list nat) : string :=
  match ds with
  | [] => EmptyString
  | d :: ds' => String (digit_char d) (numeral ds')
  end.

(** The integer the digits [ds] denote after the value [n]. *)
Fixpoint decimal_from (n : Z) (ds : list nat) : Z :=
  match ds with
  | [] => n
  | d :: ds' => decimal_from (10 * n + Z.of_nat d) ds'
  end.

Definition decimal_value (ds : list nat) : Z := decimal_from 0 ds.

Definition is_digits (ds : list nat) : Prop :=
  ds <> [] /\ Forall (fun d => (d < 10)%nat) ds.

(** The parameter that names step [ds]: the text [step_] and the numeral. *)
Definition step_reference (t : ParamType.t) (ds : list nat) : Param :=
  {| Param_Type := t;
     Param_Value := Go.bytes_of_string ("step_" +:+ numeral ds) |}.

(** ** Vocabulary of the further properties *)

(** A numeral with a sign in front, as [strconv.ParseInt] reads one. *)
Definition signed_numeral (neg : bool) (ds : list nat) : string :=
  String (if neg then "-"%char else "+"%char) (numeral ds).

(** The parameter types [createCallParams] has a case for. *)
Definition supported_type (t : ParamType.t) : bool :=
  match t with
  | ParamType.String | ParamType.ID | ParamType.KeyEd25519
  | ParamType.Uint64 | ParamType.Bool => true
  | ParamType.KeySecp256k1 | ParamType.Other _ => false
  end.

(** The text does not start with [step_]. *)
Definition no_step_prefix (value : list byte) : bool :=
  negb (Go.HasPrefix (Go.string_of_bytes value) "step_").

(** The parameters resolution leaves as they are, whatever the store and
    the table hold: the [Uint64] and [Bool] ones, and a [String] or [ID]
    without the [step_] prefix. *)
Definition kept_as_is (param : Param) : bool :=
  match Param_Type param with
  | ParamType.Uint64 | ParamType.Bool => true
  | ParamType.String | ParamType.ID => no_step_prefix (Param_Value param)
  | _ => false
  end.

(** [ids.Empty]: the identifier of 32 zero bytes. *)
Definition ids_Empty : ID := repeat x00 32.

(** [generateRandomID]; [rand_Read] stands for [crypto/rand]'s [Read]: the
    buffer it is given, as it is after the call, and the error. *)
Definition generateRandomID (rand_Read : list byte -> list byte * option error)
    : ID * option error :=
  let key := repeat x00 32 in
  let '(key, err) := rand_Read key in
  match err with
  | Some e => (ids_Empty, Some e)
  | None =>
      match ids_ToID key with
      | inl e => (ids_Empty, Some e)
      | inr id => (id, None)
      end
  end.

(** The type of the first parameter fits the endpoint and the method. *)
Definition first_param_fits {collab : Collaborators} (endpoint : Endpoint)
    (method : string) (t : ParamType.t) : bool :=
  match endpoint with
  | EndpointKey =>
      ParamType.eqb t ParamType.KeyEd25519 || ParamType.eqb t ParamType.KeySecp256k1
  | EndpointReadOnly => ParamType.eqb t ParamType.ID
  | EndpointExecute =>
      if String.eqb method ProgramCreate then ParamType.eqb t ParamType.String
      else ParamType.eqb t ParamType.ID
  | EndpointOther _ => false
  end.

(** * Theorems *)

(** ** Go's library *)

Lemma string_of_bytes_of_string (s : string) :
  Go.string_of_bytes (Go.bytes_of_string s) = s.
Proof. apply string_of_list_byte_of_string. Qed.

Lemma bytes_of_string_of_bytes (b : list byte) :
  Go.bytes_of_string (Go.string_of_bytes b) = b.
Proof. apply list_byte_of_string_of_list_byte. Qed.

Lemma prefix_app (p t : string) : String.prefix p (p +:+ t) = true.
Proof.
  induction p as [|a p IH]; simpl.
  - now destruct t.
  - destruct (ascii_dec a a); [exact IH | congruence].
Qed.

Lemma slice_from_app (p t : string) : Go.slice_from (Go.len p) (p +:+ t) = t.
Proof. induction p as [|a p IH]; simpl; [now destruct t | exact IH]. Qed.

Lemma CutPrefix_app (p t : string) : Go.CutPrefix (p +:+ t) p = (t, true).
Proof.
  unfold Go.CutPrefix, Go.HasPrefix. now rewrite prefix_app, slice_from_app.
Qed.

Lemma digit_char_code (d : nat) :
  (d < 10)%nat -> Z.of_N (N_of_ascii (digit_char d)) = 48 + Z.of_nat d.
Proof.
  intros H. do 10 (destruct d as [|d]; [reflexivity|]). lia.
Qed.

Lemma digit_char_no_sign (d : nat) :
  (d < 10)%nat ->
  Ascii.eqb (digit_char d) "+" = false /\ Ascii.eqb (digit_char d) "-" = false.
Proof.
  intros H. do 10 (destruct d as [|d]; [split; reflexivity|]). lia.
Qed.

Lemma decimal_from_ge (ds : list nat) (n : Z) : 0 <= n -> n <= decimal_from n ds.
Proof.
  revert n. induction ds as [|d ds IH]; intros n Hn; simpl; [lia|].
  specialize (IH (10 * n + Z.of_nat d)). lia.
Qed.

Lemma decimal_value_nonneg (ds : list nat) : 0 <= decimal_value ds.
Proof. apply decimal_from_ge. lia. Qed.

(** The digit loop on a numeral, at 32 bits: the value, or the range
    error as soon as the value passes [2^32 - 1]. *)
Lemma ParseUint_loop_numeral (ds : list nat) (n : Z) :
  Forall (fun d => (d < 10)%nat) ds ->
  0 <= n <= 4294967295 ->
  Go.ParseUint_loop 4294967295 n (numeral ds) =
    if decimal_from n ds <=? 4294967295 then (decimal_from n ds, None)
    else (4294967295, Some Go.ErrRange).
Proof.
  intros Hds. revert n. induction Hds as [|d ds Hd _ IH]; intros n Hn.
  - simpl. destruct (Z.leb_spec n 4294967295); [reflexivity | lia].
  - cbn [numeral Go.ParseUint_loop decimal_from].
    rewrite (digit_char_code d Hd).
    replace (48 + Z.of_nat d - 48) with (Z.of_nat d) by lia.
    assert (H48 : (48 <=? 48 + Z.of_nat d) && (48 + Z.of_nat d <=? 57) = true).
    { apply andb_true_intro. split; apply Z.leb_le; lia. }
    rewrite H48. clear H48.
    change (Go.maxUint64 / 10 + 1) with 1844674407370955162.
    destruct (Z.leb_spec 1844674407370955162 n) as [Hc|_]; [lia|].
    unfold Go.wrap_uint64. change (2 ^ 64) with 18446744073709551616.
    rewrite (Z.mod_small (n * 10)) by lia.
    rewrite (Z.mod_small (n * 10 + Z.of_nat d)) by lia.
    destruct (Z.ltb_spec (n * 10 + Z.of_nat d) (n * 10)) as [Hlt|_]; [lia|].
    replace (10 * n + Z.of_nat d) with (n * 10 + Z.of_nat d) by lia.
    cbn [orb].
    destruct (Z.ltb_spec 4294967295 (n * 10 + Z.of_nat d)) as [Hover|Hfit].
    + pose proof (decimal_from_ge ds (n * 10 + Z.of_nat d)).
      destruct (Z.leb_spec (decimal_from (n * 10 + Z.of_nat d) ds) 4294967295);
        [lia | reflexivity].
    + apply IH. lia.
Qed.

(** [ParseInt] at base 10 and 32 bits on an unsigned numeral. *)
Lemma ParseInt10_numeral (ds : list nat) :
  is_digits ds ->
  Go.ParseInt10 (numeral ds) 32 =
    if decimal_value ds <? 2147483648 then (decimal_value ds, None)
    else (2147483647, Some Go.ErrRange).
Proof.
  intros [Hne Hds]. destruct ds as [|d ds]; [congruence|].
  assert (Hd : (d < 10)%nat) by now inversion Hds.
  destruct (digit_char_no_sign d Hd) as [Hplus Hminus].
  unfold Go.ParseInt10. cbn [numeral]. rewrite Hplus, Hminus. cbn [orb negb andb].
  unfold Go.ParseUint10. change (2 ^ 32 - 1) with 4294967295.
  change (String (digit_char d) (numeral ds)) with (numeral (d :: ds)).
  rewrite (ParseUint_loop_numeral (d :: ds) 0 Hds) by lia.
  fold (decimal_value (d :: ds)). change (2 ^ (32 - 1)) with 2147483648.
  destruct (Z.leb_spec (decimal_value (d :: ds)) 4294967295) as [Hfit|Hover].
  - destruct (Z.leb_spec 2147483648 (decimal_value (d :: ds)));
      destruct (Z.ltb_spec (decimal_value (d :: ds)) 2147483648); try lia; reflexivity.
  - destruct (Z.ltb_spec (decimal_value (d :: ds)) 2147483648); [lia|reflexivity].
Qed.
Example ParseInt10_42 : Go.ParseInt10 "42" 32 = (42, None).
Proof. reflexivity. Qed.
Example ParseInt10_neg : Go.ParseInt10 "-7" 32 = (-7, None).
Proof. reflexivity. Qed.
Example ParseInt10_plus : Go.ParseInt10 "+007" 32 = (7, None).
Proof. reflexivity. Qed.
Example ParseInt10_max : Go.ParseInt10 "2147483647" 32 = (2147483647, None).
Proof. vm_compute. reflexivity. Qed.
Example ParseInt10_over : Go.ParseInt10 "2147483648" 32 = (2147483647, Some Go.ErrRange).
Proof. vm_compute. reflexivity. Qed.
Example ParseInt10_min : Go.ParseInt10 "-2147483648" 32 = (-2147483648, None).
Proof. vm_compute. reflexivity. Qed.
Example ParseInt10_letter : Go.ParseInt10 "1a" 32 = (0, Some Go.ErrSyntax).
Proof. vm_compute. reflexivity. Qed.
Example ParseInt10_empty : Go.ParseInt10 "+" 32 = (0, Some Go.ErrSyntax).
Proof. vm_compute. reflexivity. Qed.
Example CutPrefix_step : Go.CutPrefix "step_12" "step_" = ("12"%string, true).
Proof. reflexivity. Qed.
Example CutPrefix_none : Go.CutPrefix "ste" "step_" = ("ste"%string, false).
Proof. reflexivity. Qed.

(** ** Parameter resolution, one parameter at a time *)

Section Resolution.
Context {collab : Collaborators}.
Variables (c : runCmd) (db : World) (endpoint : Endpoint).

Lemma createCallParams_loop_cons (cp : list Param) (param : Param) (rest : list Param) :
  createCallParams_loop c db endpoint cp (param :: rest) =
    p' ← resolveParam c db endpoint param;
    createCallParams_loop c db endpoint (cp ++ [p']) rest.
Proof.
  unfold resolveParam. cbn [createCallParams_loop].
  destruct (Param_Type param); try reflexivity.
  - destruct (Go.CutPrefix _ _) as [idString [|]].
    + destruct (Go.ParseInt10 idString 32) as [id [cause|]]; [reflexivity|].
      destruct (programIDStrMap c !! id); reflexivity.
    + destruct (ids_ToID _); [|reflexivity].
      destruct (os_Stat_NotExist _ _); reflexivity.
  - destruct (Go.CutPrefix _ _) as [idString [|]].
    + destruct (Go.ParseInt10 idString 32) as [id [cause|]]; [reflexivity|].
      destruct (programIDStrMap c !! id); reflexivity.
    + destruct (ids_ToID _); [|reflexivity].
      destruct (os_Stat_NotExist _ _); reflexivity.
  - destruct (storage_GetPublicKey _ _) as [err|[pk|]]; [reflexivity| |].
    + destruct (key_address pk); reflexivity.
    + destruct endpoint; reflexivity.
Qed.

Lemma createCallParams_loop_acc (params cp : list Param) :
  createCallParams_loop c db endpoint cp params =
    r ← createCallParams_loop c db endpoint [] params; Ok (cp ++ r).
Proof.
  revert cp. induction params as [|param rest IH]; intros cp.
  - cbn. now rewrite app_nil_r.
  - rewrite !createCallParams_loop_cons.
    destruct (resolveParam c db endpoint param) as [p'| |]; cbn; try reflexivity.
    rewrite (IH (cp ++ [p'])), (IH [p']).
    destruct (createCallParams_loop c db endpoint [] rest); cbn; try reflexivity.
    now rewrite <- app_assoc.
Qed.

Lemma createCallParams_cons (param : Param) (rest : list Param) :
  createCallParams c db (param :: rest) endpoint =
    p' ← resolveParam c db endpoint param;
    r ← createCallParams c db rest endpoint;
    Ok (p' :: r).
Proof.
  unfold createCallParams. rewrite createCallParams_loop_cons.
  destruct (resolveParam c db endpoint param) as [p'| |]; cbn; try reflexivity.
  apply (createCallParams_loop_acc rest [p']).
Qed.

(** The parameters before one do not change what it becomes, and those
    after it are resolved as if they stood alone. *)
Lemma createCallParams_app (pre : list Param) (param : Param) (post cp_pre : list Param) :
  createCallParams c db pre endpoint = Ok cp_pre ->
  createCallParams c db (pre ++ param :: post) endpoint =
    p' ← resolveParam c db endpoint param;
    r ← createCallParams c db post endpoint;
    Ok (cp_pre ++ p' :: r).
Proof.
  revert cp_pre. induction pre as [|q pre IH]; intros cp_pre Hpre.
  - cbn in Hpre. injection Hpre as <-. apply createCallParams_cons.
  - rewrite createCallParams_cons in Hpre. cbn [app].
    rewrite createCallParams_cons.
    destruct (resolveParam c db endpoint q) as [q'| |]; cbn in Hpre |- *; try discriminate.
    destruct (createCallParams c db pre endpoint) as [r_pre| |] eqn:Hr;
      cbn in Hpre; try discriminate.
    injection Hpre as <-. rewrite (IH r_pre eq_refl).
    destruct (resolveParam c db endpoint param); cbn; try reflexivity.
    destruct (createCallParams c db post endpoint); cbn; reflexivity.
Qed.

(** The resolved list has one parameter for each one given, of the same
    type. *)
Lemma resolveParam_type (param p' : Param) :
  resolveParam c db endpoint param = Ok p' -> Param_Type p' = Param_Type param.
Proof.
  unfold resolveParam.
  destruct (Param_Type param) eqn:Ht; try discriminate;
    try (intros [= <-]; congruence).
  - destruct (Go.CutPrefix _ _) as [idString [|]].
    + destruct (Go.ParseInt10 idString 32) as [id [cause|]]; [discriminate|].
      destruct (programIDStrMap c !! id); [|discriminate]. now intros [= <-].
    + destruct (ids_ToID _); [|now intros [= <-]].
      destruct (os_Stat_NotExist _ _); [discriminate|]. intros [= <-]. congruence.
  - destruct (Go.CutPrefix _ _) as [idString [|]].
    + destruct (Go.ParseInt10 idString 32) as [id [cause|]]; [discriminate|].
      destruct (programIDStrMap c !! id); [|discriminate]. now intros [= <-].
    + destruct (ids_ToID _); [|now intros [= <-]].
      destruct (os_Stat_NotExist _ _); [discriminate|]. intros [= <-]. congruence.
  - destruct (storage_GetPublicKey _ _) as [err|[pk|]]; [discriminate| |].
    + destruct (key_address pk); cbn; try discriminate. now intros [= <-].
    + destruct endpoint; try discriminate. now intros [= <-].
Qed.

End Resolution.

(** ** References to earlier steps *)

Section StepReferences.
Context {collab : Collaborators}.

Lemma resolveParam_step_reference (c : runCmd) (db : World) (endpoint : Endpoint)
    (t : ParamType.t) (ds : list nat) :
  t = ParamType.String \/ t = ParamType.ID ->
  is_digits ds ->
  resolveParam c db endpoint (step_reference t ds) =
    if decimal_value ds <? 2147483648 then
      match programIDStrMap c !! decimal_value ds with
      | Some programID => Ok {| Param_Type := t; Param_Value := programID |}
      | None => Err (FailedToMap ("step_" +:+ numeral ds))
      end
    else Err (NumError (numeral ds) Go.ErrRange).
Proof.
  intros Ht Hds. unfold resolveParam, step_reference.
  cbn [Param_Type Param_Value].
  rewrite string_of_bytes_of_string, CutPrefix_app, (ParseInt10_numeral ds Hds).
  destruct Ht as [-> | ->];
    (destruct (decimal_value ds <? 2147483648); [|reflexivity]);
    destruct (programIDStrMap c !! decimal_value ds); reflexivity.
Qed.

(** C1 (amended): a String or ID parameter whose text is [step_] and a
    decimal integer [N] resolves to the bytes of the identifier the
    table holds at index [N], whatever stands before and after it in
    the list; when the table holds nothing at [N], resolution fails
    with the failed-to-map error and produces no list.  Both hold for
    [N] below [2^31]; from [2^31] on, the integer parser's range error
    is returned instead, whatever the table holds.  A table that holds
    entries for earlier steps only (as [RunStep_ledger_below] shows it
    does) holds nothing at or beyond the current step. *)
Theorem step_reference_resolution (c : runCmd) (db : World) (endpoint : Endpoint)
    (pre post cp_pre : list Param) (t : ParamType.t) (ds : list nat) :
  t = ParamType.String \/ t = ParamType.ID ->
  is_digits ds ->
  createCallParams c db pre endpoint = Ok cp_pre ->
  let N := decimal_value ds in
  let resolution :=
    createCallParams c db (pre ++ step_reference t ds :: post) endpoint in
  (N < 2 ^ 31 -> forall programID, programIDStrMap c !! N = Some programID ->
     resolution =
       r ← createCallParams c db post endpoint;
       Ok (cp_pre ++ {| Param_Type := t; Param_Value := programID |} :: r))
  /\ (N < 2 ^ 31 -> programIDStrMap c !! N = None ->
      resolution = Err (FailedToMap ("step_" +:+ numeral ds)))
  /\ (2 ^ 31 <= N -> resolution = Err (NumError (numeral ds) Go.ErrRange))
  /\ (ledger_below c -> lastStep c <= N < 2 ^ 31 ->
      resolution = Err (FailedToMap ("step_" +:+ numeral ds))).
Proof.
  intros Ht Hds Hpre N resolution. subst resolution.
  rewrite (createCallParams_app c db endpoint pre _ post cp_pre Hpre).
  rewrite (resolveParam_step_reference c db endpoint t ds Ht Hds).
  fold N. change (2 ^ 31) with 2147483648.
  split; [|split; [|split]].
  - intros HN programID Hid.
    destruct (Z.ltb_spec N 2147483648); [|lia].
    destruct (programIDStrMap c !! N) eqn:E; [|discriminate].
    now injection Hid as ->.
  - intros HN Hnone.
    destruct (Z.ltb_spec N 2147483648); [|lia].
    destruct (programIDStrMap c !! N) eqn:E; [discriminate|reflexivity].
  - intros HN. destruct (Z.ltb_spec N 2147483648); [lia|reflexivity].
  - intros Hbelow [Hlo Hhi].
    destruct (Z.ltb_spec N 2147483648); [|lia].
    destruct (programIDStrMap c !! N) eqn:E; [|reflexivity].
    apply Hbelow in E. lia.
Qed.

End StepReferences.

(** The three cases of [step_reference_resolution] in the simulated world:
    [step_1] with an identifier recorded at index 1, [step_1] with an
    empty table, and [step_2147483648]. *)
Lemma step_reference_resolution_witness :
  let c0 := Sim.fresh "" "" in
  let c1 := {| lastStep := 2; file := Some ""%string; planStep := Some ""%string;
               step := None; programIDStrMap := <[1 := Sim.mint 0]> ∅ |} in
  createCallParams c1 Sim.w0 [step_reference ParamType.ID [1%nat]] EndpointExecute
    = Ok [{| Param_Type := ParamType.ID; Param_Value := Sim.mint 0 |}]
  /\ createCallParams c0 Sim.w0 [step_reference ParamType.ID [1%nat]] EndpointExecute
    = Err (FailedToMap "step_1")
  /\ createCallParams c0 Sim.w0
       [step_reference ParamType.String [2; 1; 4; 7; 4; 8; 3; 6; 4; 8]%nat] EndpointExecute
    = Err (NumError "2147483648" Go.ErrRange).
Proof.
  intros c0 c1.
  assert (D1 : is_digits [1%nat]).
  { split; [discriminate | repeat constructor]. }
  assert (D2 : is_digits [2; 1; 4; 7; 4; 8; 3; 6; 4; 8]%nat).
  { split; [discriminate | repeat constructor]. }
  split; [|split].
  - apply (proj1 (step_reference_resolution (collab := Sim.collab)
                    c1 Sim.w0 EndpointExecute [] [] []
                    ParamType.ID [1%nat] (or_intror eq_refl) D1 eq_refl));
      [reflexivity | reflexivity].
  - apply (proj1 (proj2 (step_reference_resolution (collab := Sim.collab)
                    c0 Sim.w0 EndpointExecute [] [] []
                    ParamType.ID [1%nat] (or_intror eq_refl) D1 eq_refl)));
      reflexivity.
  - apply (proj1 (proj2 (proj2 (step_reference_resolution (collab := Sim.collab)
                    c0 Sim.w0 EndpointExecute [] [] []
                    ParamType.String [2; 1; 4; 7; 4; 8; 3; 6; 4; 8]%nat
                    (or_introl eq_refl) D2 eq_refl)))).
    vm_compute. discriminate.
Defined.

(** C1 as it was stated fails at [step_2147483648]: the table holds
    nothing at that index, and the error is the parser's range error, not
    the failed-to-map error. *)
Lemma step_reference_beyond_int32 :
  let c := Sim.fresh "" "" in
  let param := {| Param_Type := ParamType.ID;
                  Param_Value := Go.bytes_of_string "step_2147483648" |} in
  param = step_reference ParamType.ID [2; 1; 4; 7; 4; 8; 3; 6; 4; 8]%nat
  /\ decimal_value [2; 1; 4; 7; 4; 8; 3; 6; 4; 8]%nat = 2147483648
  /\ programIDStrMap c !! 2147483648 = None
  /\ createCallParams c Sim.w0 [param] EndpointExecute
       = Err (NumError "2147483648" Go.ErrRange)
  /\ createCallParams c Sim.w0 [param] EndpointExecute
       <> Err (FailedToMap "step_2147483648").
Proof.
  repeat split; try reflexivity. vm_compute. discriminate.
Qed.

(** ** Named keys *)

Section NamedKeys.
Context {collab : Collaborators}.

Lemma copy_exact {A} (dst src : list A) :
  length dst = length src -> Go.copy dst src = src.
Proof.
  intros H. unfold Go.copy.
  rewrite H, firstn_all, skipn_all2 by lia. apply app_nil_r.
Qed.

(** With [codec.AddressLen] one more than the length of the key, the
    address is the prefix byte and the key. *)
Lemma key_address_exact (pk : PublicKey) :
  AddressLen = S (length pk) -> key_address pk = Ok (x00 :: pk).
Proof.
  intros H. unfold key_address. rewrite H. cbn [repeat].
  now rewrite copy_exact by apply repeat_length.
Qed.

(** Whatever the key, the address has [codec.AddressLen] bytes and
    starts with the prefix byte. *)
Lemma key_address_shape (pk : PublicKey) (address : list byte) :
  key_address pk = Ok address ->
  length address = AddressLen /\ head address = Some x00.
Proof.
  unfold key_address. destruct AddressLen as [|n]; cbn [repeat]; [discriminate|].
  intros [= <-]. split; [|reflexivity].
  cbn [length]. f_equal. unfold Go.copy.
  rewrite length_app, length_firstn, length_skipn, !repeat_length. lia.
Qed.

(** C6: a KeyEd25519 parameter holds a key name.  When the store has a
    public key for the name, the value becomes the address: the tag
    byte 0 and the key's bytes, [codec.AddressLen] bytes in all (the
    address is one byte longer than the key, as the two array types
    are).  When
    the store has none, resolution fails with the named-key-not-found
    error for every endpoint but Key, and for the Key endpoint the
    parameter passes through unchanged. *)
Theorem named_key_resolution (c : runCmd) (db : World) (endpoint : Endpoint)
    (pre post cp_pre : list Param) (value : list byte) :
  createCallParams c db pre endpoint = Ok cp_pre ->
  let name := Go.string_of_bytes value in
  let param := {| Param_Type := ParamType.KeyEd25519; Param_Value := value |} in
  let resolution := createCallParams c db (pre ++ param :: post) endpoint in
  (forall pk, storage_GetPublicKey db name = inr (Some pk) ->
     AddressLen = S (length pk) ->
     length (x00 :: pk) = AddressLen
     /\ resolution =
          r ← createCallParams c db post endpoint;
          Ok (cp_pre ++ {| Param_Type := ParamType.KeyEd25519;
                           Param_Value := x00 :: pk |} :: r))
  /\ (storage_GetPublicKey db name = inr None -> endpoint <> EndpointKey ->
      resolution = Err (NamedKeyNotFound name))
  /\ (storage_GetPublicKey db name = inr None -> endpoint = EndpointKey ->
      resolution =
        r ← createCallParams c db post endpoint; Ok (cp_pre ++ param :: r)).
Proof.
  intros Hpre name param resolution. subst resolution.
  rewrite (createCallParams_app c db endpoint pre param post cp_pre Hpre).
  unfold resolveParam. cbn [param Param_Type Param_Value]. fold name.
  split; [|split].
  - intros pk Hpk Hlen. rewrite Hpk, (key_address_exact pk Hlen).
    split; [cbn [length]; lia|].
    cbn [mbind exec_bind]. now rewrite bytes_of_string_of_bytes.
  - intros Hnone Hep. rewrite Hnone. destruct endpoint; [congruence | reflexivity..].
  - intros Hnone ->. rewrite Hnone. unfold name.
    now rewrite bytes_of_string_of_bytes.
Qed.

End NamedKeys.

(** The three cases of [named_key_resolution] in the simulated world: the
    name [alice] after its key was created, and before, for the ReadOnly
    and for the Key endpoint. *)
Lemma named_key_resolution_witness :
  let c := Sim.fresh "" "" in
  let alice := {| Param_Type := ParamType.KeyEd25519;
                  Param_Value := Go.bytes_of_string "alice" |} in
  let w1 := fst (Sim.createNamedKey Sim.w0 "alice") in
  createCallParams c w1 [alice] EndpointReadOnly
    = Ok [{| Param_Type := ParamType.KeyEd25519; Param_Value := x00 :: Sim.mint 0 |}]
  /\ createCallParams c Sim.w0 [alice] EndpointReadOnly = Err (NamedKeyNotFound "alice")
  /\ createCallParams c Sim.w0 [alice] EndpointKey = Ok [alice].
Proof.
  intros c alice w1. split; [|split].
  - apply (proj1 (named_key_resolution (collab := Sim.collab) c w1 EndpointReadOnly
                    [] [] [] (Go.bytes_of_string "alice") eq_refl) (Sim.mint 0));
      reflexivity.
  - apply (proj1 (proj2 (named_key_resolution (collab := Sim.collab) c Sim.w0
                    EndpointReadOnly [] [] [] (Go.bytes_of_string "alice") eq_refl)));
      [reflexivity | discriminate].
  - apply (proj2 (proj2 (named_key_resolution (collab := Sim.collab) c Sim.w0
                    EndpointKey [] [] [] (Go.bytes_of_string "alice") eq_refl)));
      reflexivity.
Defined.

(** ** The key type without a resolution branch *)

Section Secp256k1.
Context {collab : Collaborators}.

Lemma resolveParam_secp256k1 (c : runCmd) (db : World) (endpoint : Endpoint)
    (value : list byte) :
  resolveParam c db endpoint
    {| Param_Type := ParamType.KeySecp256k1; Param_Value := value |}
  = Err (InvalidParamType ParamType.KeySecp256k1).
Proof. reflexivity. Qed.

(** A list with a KeySecp256k1 parameter in it never resolves. *)
Lemma createCallParams_secp256k1 (c : runCmd) (db : World) (endpoint : Endpoint)
    (pre post cp : list Param) (value : list byte) :
  createCallParams c db
    (pre ++ {| Param_Type := ParamType.KeySecp256k1; Param_Value := value |} :: post)
    endpoint <> Ok cp.
Proof.
  revert cp. induction pre as [|q pre IH]; intros cp; cbn [app];
    rewrite createCallParams_cons.
  - now rewrite resolveParam_secp256k1.
  - destruct (resolveParam c db endpoint q); cbn; try discriminate.
    destruct (createCallParams c db (pre ++ _ :: post) endpoint) as [r| |] eqn:E;
      cbn; try discriminate.
    now destruct (IH r).
Qed.

(** C10: a Key step whose first parameter is a KeySecp256k1 passes
    [verifyEndpoint] and [Verify]; [createCallParams] then fails on it
    with the invalid-parameter-type error, and [RunStep] returns that
    error with the command and the store as they were: the step is not
    dispatched.  No list that carries a KeySecp256k1 parameter, for any
    endpoint, resolves. *)
Theorem secp256k1_never_dispatched (db : World) (i maxUnits : Z) (method : string)
    (f p : option string) (ids : gmap Z ID) (value : list byte) (rest : list Param) :
  let p0 := {| Param_Type := ParamType.KeySecp256k1; Param_Value := value |} in
  let s := {| Step_Endpoint := EndpointKey; Step_Method := method;
              Step_MaxUnits := maxUnits; Step_Params := Some (p0 :: rest) |} in
  let c := {| lastStep := i; file := f; planStep := p; step := Some s;
              programIDStrMap := ids |} in
  verifyEndpoint i s = Ok ()
  /\ Verify c = Ok ()
  /\ createCallParams c db (p0 :: rest) EndpointKey
     = Err (InvalidParamType ParamType.KeySecp256k1)
  /\ RunStep c db
     = Returns {| ran_cmd := c; ran_db := db; ran_resp := Some (newResponse 0);
                  ran_err := Some (InvalidParamType ParamType.KeySecp256k1) |}
  /\ (forall (c' : runCmd) (endpoint : Endpoint) (pre post cp : list Param)
             (value' : list byte),
        createCallParams c' db
          (pre ++ {| Param_Type := ParamType.KeySecp256k1; Param_Value := value' |}
               :: post) endpoint <> Ok cp).
Proof.
  intros p0 s c. repeat split; try reflexivity.
  intros c' endpoint pre post cp value'. apply createCallParams_secp256k1.
Qed.

End Secp256k1.

(** ** Validation *)

Section Validation.
Context {collab : Collaborators}.

(** C2: for every endpoint, a step without a [params] field (the nil
    slice) fails [Verify] with the no-params error, which wraps
    [ErrInvalidStep]; a step whose [params] is the empty list passes the
    nil test, and [verifyEndpoint] then reads [Params[0]]: the call
    panics instead of returning the error. *)
Theorem Verify_without_params (i maxUnits : Z) (endpoint : Endpoint)
    (method : string) (f p : option string) (ids : gmap Z ID) :
  let c params :=
    {| lastStep := i; file := f; planStep := p;
       step := Some {| Step_Endpoint := endpoint; Step_Method := method;
                       Step_MaxUnits := maxUnits; Step_Params := params |};
       programIDStrMap := ids |} in
  Verify (c None) = Err NoParamsFound
  /\ errors_Is NoParamsFound ErrInvalidStep = true
  /\ Verify (c (Some [])) = Panic (IndexOutOfRange 0 0).
Proof. repeat split. Qed.

(** When [Verify] fails, [Run] returns its error with [newResponse(0)];
    the store and the table of identifiers are as [Init] left them. *)
Lemma Run_Verify_fails (c c1 : runCmd) (db : World) (err : error) :
  Init c db = Returns (c1, None) ->
  Verify c1 = Err err ->
  Run c db = Returns {| ran_cmd := c1; ran_db := db;
                        ran_resp := Some (newResponse 0); ran_err := Some err |}.
Proof. intros HI HV. unfold Run. now rewrite HI, HV. Qed.

End Validation.

(** The plan text [params: []] through [Run] in the simulated world. *)
Example Run_empty_params_panics :
  Run (Sim.fresh "{endpoint: key, method: create, params: []}" "") Sim.w0
  = Panics (IndexOutOfRange 0 0).
Proof. reflexivity. Qed.

(** The plan text without [params] through [Run]. *)
Example Run_no_params_fails :
  exists c1,
    Run (Sim.fresh "{endpoint: key, method: create}" "") Sim.w0
    = Returns {| ran_cmd := c1; ran_db := Sim.w0; ran_resp := Some (newResponse 0);
                 ran_err := Some NoParamsFound |}.
Proof. eexists. reflexivity. Qed.

(** ** Loading the step *)

Section Loading.
Context {collab : Collaborators}.

(** C8 (amended): [Init] fails with the no-plan-source error when
    neither the inline text nor the file path is supplied, and with the
    decoder's error when the payload it reads does not decode into a
    step.  At least one source must be supplied: an inline text that is
    supplied is the payload whatever the file flag holds, and the file
    is read only when no inline text is supplied. *)
Theorem Init_plan_sources (c : runCmd) (db : World) (f : string) :
  file c = Some f ->
  (supplied (planStep c) = false -> supplied (file c) = false ->
     Init c db = Returns (c, Some NoPlanSource))
  /\ (forall p, planStep c = Some p -> supplied (planStep c) = true ->
        Init c db =
          match unmarshalStep (Go.bytes_of_string p) with
          | inl err => Returns (with_step c None, Some err)
          | inr s => Returns (with_step c (Some s), None)
          end)
  /\ (supplied (planStep c) = false -> supplied (file c) = true ->
        Init c db =
          match os_ReadFile db f with
          | inl err => Returns (c, Some err)
          | inr bytes =>
              match unmarshalStep bytes with
              | inl err => Returns (with_step c None, Some err)
              | inr s => Returns (with_step c (Some s), None)
              end
          end).
Proof.
  intros Hf. unfold Init, supplied. rewrite Hf. split; [|split].
  - intros Hp Hfile. rewrite Hfile. destruct (planStep c) as [p|]; [|reflexivity].
    now rewrite Hp.
  - intros p -> Hp. now rewrite Hp.
  - intros Hp Hfile. rewrite Hfile. destruct (planStep c) as [p|]; [|reflexivity].
    now rewrite Hp.
Qed.

End Loading.

(** [Init_plan_sources] in the simulated world: no source; an inline text
    that does not decode; a file that decodes. *)
Lemma Init_plan_sources_witness :
  Init (Sim.fresh "" "") Sim.w0 = Returns (Sim.fresh "" "", Some NoPlanSource)
  /\ Init (Sim.fresh "endpoint" "") Sim.w0
     = Returns (with_step (Sim.fresh "endpoint" "") None,
                Some (External [] "cannot unmarshal the step"))
  /\ Init (Sim.fresh "" "./step.yaml") Sim.w0
     = Returns (with_step (Sim.fresh "" "./step.yaml") (Some Sim.key_alice), None).
Proof.
  split; [|split].
  - apply (proj1 (Init_plan_sources (collab := Sim.collab) (Sim.fresh "" "") Sim.w0 ""
                    eq_refl)); reflexivity.
  - apply (proj1 (proj2 (Init_plan_sources (collab := Sim.collab)
                    (Sim.fresh "endpoint" "") Sim.w0 "" eq_refl)) "endpoint"%string);
      reflexivity.
  - apply (proj2 (proj2 (Init_plan_sources (collab := Sim.collab)
                    (Sim.fresh "" "./step.yaml") Sim.w0 "./step.yaml" eq_refl)));
      reflexivity.
Defined.

(** C8 as it was stated asks for exactly one source.  With both supplied
    [Init] succeeds: it decodes the inline text and does not read the
    file, which holds another step. *)
Lemma Init_accepts_two_sources :
  let c := Sim.fresh
             "{endpoint: execute, method: program create, params: [{type: string, value: ./mod.bin}]}"
             "./step.yaml" in
  supplied (planStep c) = true
  /\ supplied (file c) = true
  /\ Init c Sim.w0 = Returns (with_step c (Some Sim.create_mod), None)
  /\ os_ReadFile Sim.w0 "./step.yaml"
     = inr (Go.bytes_of_string
              "{endpoint: key, method: create, params: [{type: ed25519, value: alice}]}")
  /\ unmarshalStep
       (Go.bytes_of_string
          "{endpoint: key, method: create, params: [{type: ed25519, value: alice}]}")
     = inr Sim.key_alice.
Proof. repeat split. Qed.

(** ** Dispatch *)

Section Dispatch.
Context {collab : Collaborators}.

(** What a call step does once the interpreter has answered. *)
Lemma runStepFunc_call (db db' : World) (endpoint : Endpoint) (maxUnits : Z)
    (method : string) (p0 : Param) (rest : list Param) (resp : Response)
    (id id' : ID) (response : list (option (list byte))) (balance : Z) :
  is_call endpoint method ->
  ids_ToID (Param_Value p0) = inr id ->
  programExecuteFunc db id rest method (call_budget endpoint maxUnits)
    = (db', inr (id', response, balance)) ->
  runStepFunc db endpoint maxUnits method (p0 :: rest) resp =
    if Nat.ltb 1 (length response)
    then Returns (db', setTimestamp resp (time_Now_Unix db), Some MultiResponse)
    else
      match response with
      | [] => Panics (IndexOutOfRange 0 0)
      | res :: _ =>
          let resp' := match res with
                       | Some r => setResponse resp r
                       | None => resp
                       end in
          Returns (db',
                   setTimestamp
                     (match endpoint with
                      | EndpointReadOnly => resp'
                      | _ => setBalance (setTxID resp' (ID_String id')) balance
                      end) (time_Now_Unix db),
                   None)
      end.
Proof.
  intros [-> | [-> Hm]] Hid Hcall; unfold runStepFunc, runStepFunc_switch;
    cbn [call_budget skipn] in *.
  - rewrite Hid. cbv beta iota. change (skipn 0 rest) with rest. rewrite Hcall.
    destruct (Nat.ltb 1 (length response)); [reflexivity|].
    destruct response as [|[r|] ?]; reflexivity.
  - apply String.eqb_neq in Hm. rewrite Hm, Hid. cbv beta iota.
    change (skipn 0 rest) with rest. rewrite Hcall.
    destruct (Nat.ltb 1 (length response)); [reflexivity|].
    destruct response as [|[r|] ?]; reflexivity.
Qed.

(** A dispatch that returns an error has written nothing on the
    response but the timestamp. *)
Lemma runStepFunc_failed (db db' : World) (endpoint : Endpoint) (maxUnits : Z)
    (method : string) (params : list Param) (resp resp' : Response) (e : error) :
  runStepFunc db endpoint maxUnits method params resp = Returns (db', resp', Some e) ->
  resp' = setTimestamp resp (time_Now_Unix db).
Proof.
  unfold runStepFunc, runStepFunc_switch. intros H.
  repeat case_match; simplify_eq; reflexivity.
Qed.

(** No dispatch writes the error or the index of the response, and the
    identifier it reports, if any, is the text of an [ids.ID]. *)
Lemma runStepFunc_frame (db db' : World) (endpoint : Endpoint) (maxUnits : Z)
    (method : string) (params : list Param) (resp resp' : Response)
    (err : option error) :
  runStepFunc db endpoint maxUnits method params resp = Returns (db', resp', err) ->
  Resp_Error resp' = Resp_Error resp
  /\ Resp_ID resp' = Resp_ID resp
  /\ (Resp_TxID resp' = Resp_TxID resp
      \/ exists id, Resp_TxID resp' = Some (ID_String id)).
Proof.
  unfold runStepFunc, runStepFunc_switch. intros H.
  repeat case_match; simplify_eq; cbn; eauto.
Qed.

End Dispatch.

(** ** Running a step *)

Section Running.
Context {collab : Collaborators}.

(** [RunStep] when resolution fails: the error comes back with
    [newResponse(0)], nothing is dispatched, nothing changes. *)
Lemma RunStep_unresolved (c : runCmd) (db : World) (s : Step) (err : error) :
  step c = Some s ->
  createCallParams c db (default [] (Step_Params s)) (Step_Endpoint s) = Err err ->
  RunStep c db = Returns {| ran_cmd := c; ran_db := db;
                            ran_resp := Some (newResponse 0); ran_err := Some err |}.
Proof. intros Hs Hp. unfold RunStep. now rewrite Hs, Hp. Qed.

(** [RunStep] panics when the dispatch does. *)
Lemma RunStep_panics (c : runCmd) (db : World) (s : Step) (params : list Param)
    (p : panic) :
  step c = Some s ->
  createCallParams c db (default [] (Step_Params s)) (Step_Endpoint s) = Ok params ->
  runStepFunc db (Step_Endpoint s) (Step_MaxUnits s) (Step_Method s) params
              (newResponse (lastStep c)) = Panics p ->
  RunStep c db = Panics p.
Proof. intros Hs Hp Hd. unfold RunStep. now rewrite Hs, Hp, Hd. Qed.

(** C3: once the parameters of the step have resolved and the dispatch
    has returned, with or without an error, [RunStep] returns the
    response and no error, and the counter is one more than it was
    (the 64-bit successor; exactly one more below the largest [int]).
    An error of the dispatch is carried by the response.  The text of
    an identifier is taken to decode, as [id.String()] does under
    [ids.FromString]. *)
Theorem RunStep_advances (c : runCmd) (db db' : World) (s : Step)
    (params : list Param) (resp : Response) (err : option error) :
  (forall id, exists id', ids_FromString (ID_String id) = inr id') ->
  step c = Some s ->
  createCallParams c db (default [] (Step_Params s)) (Step_Endpoint s) = Ok params ->
  runStepFunc db (Step_Endpoint s) (Step_MaxUnits s) (Step_Method s) params
              (newResponse (lastStep c)) = Returns (db', resp, err) ->
  exists r resp',
    RunStep c db = Returns r
    /\ lastStep (ran_cmd r) = Go.wrap_int (lastStep c + 1)
    /\ (- 2 ^ 63 <= lastStep c < Go.maxInt -> lastStep (ran_cmd r) = lastStep c + 1)
    /\ ran_db r = db'
    /\ ran_err r = None
    /\ ran_resp r = Some resp'
    /\ Resp_ID resp' = lastStep c
    /\ Resp_Error resp' = err
    /\ (err = None -> resp' = resp)
    /\ (forall e, err = Some e -> resp' = setError resp e).
Proof.
  intros Hcodec Hs Hp Hd.
  destruct (runStepFunc_frame _ _ _ _ _ _ _ _ _ Hd) as (Herr & Hid & Htx).
  cbn in Herr, Hid, Htx.
  set (resp' := match err with Some e => setError resp e | None => resp end).
  assert (Hwrap : - 2 ^ 63 <= lastStep c < Go.maxInt ->
                  Go.wrap_int (lastStep c + 1) = lastStep c + 1).
  { unfold Go.wrap_int, Go.maxInt. intros H.
    rewrite Z.mod_small; lia. }
  assert (Hresp : Resp_ID resp' = lastStep c /\ Resp_Error resp' = err
                  /\ (err = None -> resp' = resp)
                  /\ (forall e, err = Some e -> resp' = setError resp e)).
  { subst resp'. destruct err as [e|]; cbn; repeat split; congruence. }
  assert (Htx' : Resp_TxID resp' = None
                 \/ exists id, Resp_TxID resp' = Some (ID_String id)).
  { subst resp'. destruct err; cbn; destruct Htx as [->|?]; auto. }
  unfold RunStep. rewrite Hs, Hp, Hd. fold resp'. unfold getTxID.
  destruct Htx' as [-> | [id ->]].
  - eexists _, resp'. split; [reflexivity|]. cbn. intuition.
  - destruct (Hcodec id) as [id' ->].
    eexists _, resp'. split; [reflexivity|]. cbn. intuition.
Qed.

(** The table grows with the counter: [RunStep] records an identifier at
    the index of the step it ran, and at no other. *)
Lemma RunStep_ledger_below (c : runCmd) (db : World) (r : ran) :
  RunStep c db = Returns r ->
  0 <= lastStep c < Go.maxInt ->
  ledger_below c ->
  ledger_below (ran_cmd r).
Proof.
  intros HR Hrange Hbelow.
  assert (Hwrap : Go.wrap_int (lastStep c + 1) = lastStep c + 1).
  { unfold Go.wrap_int, Go.maxInt in *. rewrite Z.mod_small; lia. }
  assert (Hkeep : forall ids : gmap Z ID,
             (forall k id, ids !! k = Some id -> 0 <= k <= lastStep c) ->
             ledger_below {| lastStep := Go.wrap_int (lastStep c + 1); file := file c;
                             planStep := planStep c; step := step c;
                             programIDStrMap := ids |}).
  { intros ids Hids k id Hk. cbn in *. rewrite Hwrap. apply Hids in Hk. lia. }
  revert HR. unfold RunStep. intros HR.
  repeat case_match; simplify_eq; cbn [ran_cmd]; try assumption; apply Hkeep;
    intros k id'; rewrite ?lookup_insert; repeat case_decide; intros Hk;
    try apply Hbelow in Hk; lia.
Qed.

End Running.

(** [RunStep_advances] on a step whose dispatch fails: the call of a
    program the simulated store does not hold. *)
Lemma RunStep_advances_witness :
  let c := Sim.loaded (Sim.call EndpointExecute [Sim.u64 "7"]) in
  exists r resp',
    RunStep c Sim.w0 = Returns r
    /\ lastStep c = 1
    /\ lastStep (ran_cmd r) = 2
    /\ ran_err r = None
    /\ ran_resp r = Some resp'
    /\ Resp_Error resp' = Some (External [] "unknown program").
Proof.
  intros c.
  edestruct (RunStep_advances (collab := Sim.collab) c Sim.w0)
    as (r & resp' & HR & _ & Hadv & _ & Herr & Hresp & _ & HE & _).
  - intros id. eexists. reflexivity.
  - reflexivity.
  - reflexivity.
  - reflexivity.
  - exists r, resp'. repeat split; try assumption.
    apply Hadv. vm_compute. split; [intros H; discriminate H | reflexivity].
Defined.

(** ** The results of a call *)

Section CallResults.
Context {collab : Collaborators}.

(** C4: when the interpreter answers a call step (a ReadOnly step, or
    an Execute step that does not create a program) with more than one
    result payload, the dispatch returns the multi-response error and
    has set nothing on the response but the timestamp; [RunStep] puts
    the error on the response, which has no result payload, no
    identifier, no balance and no message. *)
Theorem multi_response_unsupported (c : runCmd) (db db' : World) (s : Step)
    (p0 : Param) (rest : list Param) (id id' : ID)
    (response : list (option (list byte))) (balance : Z) :
  step c = Some s ->
  is_call (Step_Endpoint s) (Step_Method s) ->
  createCallParams c db (default [] (Step_Params s)) (Step_Endpoint s)
    = Ok (p0 :: rest) ->
  ids_ToID (Param_Value p0) = inr id ->
  programExecuteFunc db id rest (Step_Method s)
      (call_budget (Step_Endpoint s) (Step_MaxUnits s))
    = (db', inr (id', response, balance)) ->
  (1 < length response)%nat ->
  let resp := newResponse (lastStep c) in
  runStepFunc db (Step_Endpoint s) (Step_MaxUnits s) (Step_Method s) (p0 :: rest) resp
    = Returns (db', setTimestamp resp (time_Now_Unix db), Some MultiResponse)
  /\ exists r resp',
       RunStep c db = Returns r
       /\ ran_err r = None
       /\ ran_resp r = Some resp'
       /\ resp' = setError (setTimestamp resp (time_Now_Unix db)) MultiResponse
       /\ Resp_Error resp' = Some MultiResponse
       /\ Resp_Response resp' = None
       /\ Resp_TxID resp' = None
       /\ Resp_Balance resp' = None
       /\ Resp_Msg resp' = None.
Proof.
  intros Hs Hcall Hp Hid Hexec Hlen resp.
  assert (Hd : runStepFunc db (Step_Endpoint s) (Step_MaxUnits s) (Step_Method s)
                 (p0 :: rest) resp
               = Returns (db', setTimestamp resp (time_Now_Unix db), Some MultiResponse)).
  { rewrite (runStepFunc_call _ _ _ _ _ _ _ _ _ _ _ _ Hcall Hid Hexec).
    apply Nat.ltb_lt in Hlen. now rewrite Hlen. }
  split; [exact Hd|].
  unfold RunStep. rewrite Hs, Hp. fold resp. rewrite Hd.
  eexists _, _. repeat split.
Qed.

(** C9: a call step reads the first result payload whenever the
    interpreter has answered with at most one.  On an empty answer the
    read is out of range and the dispatch panics; a dispatch that
    returns without an error had an answer of exactly one payload. *)
Theorem empty_response_out_of_range (db db' : World) (endpoint : Endpoint)
    (maxUnits : Z) (method : string) (p0 : Param) (rest : list Param)
    (resp : Response) (id id' : ID) (response : list (option (list byte)))
    (balance : Z) :
  is_call endpoint method ->
  ids_ToID (Param_Value p0) = inr id ->
  programExecuteFunc db id rest method (call_budget endpoint maxUnits)
    = (db', inr (id', response, balance)) ->
  (response = [] ->
     runStepFunc db endpoint maxUnits method (p0 :: rest) resp
     = Panics (IndexOutOfRange 0 0))
  /\ (forall db'' resp',
        runStepFunc db endpoint maxUnits method (p0 :: rest) resp
        = Returns (db'', resp', None) ->
        length response = 1%nat)
  /\ ((length response <= 1)%nat ->
      runStepFunc db endpoint maxUnits method (p0 :: rest) resp
      = match response with
        | [] => Panics (IndexOutOfRange 0 0)
        | res :: _ =>
            let resp' := match res with
                         | Some r => setResponse resp r
                         | None => resp
                         end in
            Returns (db',
                     setTimestamp
                       (match endpoint with
                        | EndpointReadOnly => resp'
                        | _ => setBalance (setTxID resp' (ID_String id')) balance
                        end) (time_Now_Unix db),
                     None)
        end).
Proof.
  intros Hcall Hid Hexec.
  rewrite (runStepFunc_call _ _ _ _ _ _ _ resp _ _ _ _ Hcall Hid Hexec).
  split; [|split].
  - intros ->. reflexivity.
  - intros db'' resp'. destruct (Nat.ltb_spec 1 (length response)); [discriminate|].
    destruct response as [|res response]; [discriminate|]. cbn [length] in *. lia.
  - intros Hlen. destruct (Nat.ltb_spec 1 (length response)); [lia|reflexivity].
Qed.

(** For a ReadOnly step the [maxUnits] of the step is not read. *)
Lemma runStepFunc_readonly_maxUnits (db : World) (maxUnits maxUnits' : Z)
    (method : string) (params : list Param) (resp : Response) :
  runStepFunc db EndpointReadOnly maxUnits method params resp
  = runStepFunc db EndpointReadOnly maxUnits' method params resp.
Proof. reflexivity. Qed.

(** A ReadOnly dispatch consults the interpreter at the budget
    [math.MaxUint64] and at no other: two interpreters that agree there
    give the same dispatch. *)
Lemma runStepFunc_readonly_budget (C : Collaborators)
    (f g : @World C -> ID -> list Param -> string -> Z ->
           @World C * (error + (ID * list (option (list byte)) * Z)))
    (db : @World C) (maxUnits : Z) (method : string) (params : list Param)
    (resp : Response) :
  (forall db id ps m, f db id ps m Go.maxUint64 = g db id ps m Go.maxUint64) ->
  runStepFunc (collab := with_interpreter C f) db EndpointReadOnly maxUnits method
              params resp
  = runStepFunc (collab := with_interpreter C g) db EndpointReadOnly maxUnits method
                params resp.
Proof.
  intros Hfg. unfold runStepFunc, runStepFunc_switch.
  destruct params as [|p0 rest]; [reflexivity|].
  destruct (ids_ToID (Param_Value p0)) as [e|id]; [reflexivity|].
  cbn [programExecuteFunc with_interpreter time_Now_Unix]. now rewrite Hfg.
Qed.

(** C5: a ReadOnly step whose dispatch succeeds has called the
    interpreter with the budget [math.MaxUint64], with any other
    [maxUnits] the dispatch is the same, and the response has no
    balance (and no identifier). *)
Theorem readonly_dispatch (db db' : World) (maxUnits index : Z) (method : string)
    (params : list Param) (resp' : Response) :
  runStepFunc db EndpointReadOnly maxUnits method params (newResponse index)
    = Returns (db', resp', None) ->
  Resp_Balance resp' = None
  /\ Resp_TxID resp' = None
  /\ (exists p0 rest id id' res balance,
        params = p0 :: rest
        /\ ids_ToID (Param_Value p0) = inr id
        /\ programExecuteFunc db id rest method Go.maxUint64
           = (db', inr (id', [res], balance))
        /\ Resp_Response resp' = res)
  /\ (forall maxUnits',
        runStepFunc db EndpointReadOnly maxUnits' method params (newResponse index)
        = Returns (db', resp', None)).
Proof.
  intros H. split; [|split; [|split]].
  - revert H. unfold runStepFunc, runStepFunc_switch. intros H.
    repeat case_match; simplify_eq; reflexivity.
  - revert H. unfold runStepFunc, runStepFunc_switch. intros H.
    repeat case_match; simplify_eq; reflexivity.
  - revert H. unfold runStepFunc, runStepFunc_switch.
    destruct params as [|p0 rest]; [discriminate|].
    destruct (ids_ToID (Param_Value p0)) as [e|id] eqn:Hid; [discriminate|].
    change (skipn 1 (p0 :: rest)) with rest.
    destruct (programExecuteFunc db id rest method Go.maxUint64)
      as [db1 [e|[[id' response] balance]]] eqn:Hexec; [discriminate|].
    destruct (Nat.ltb_spec 1 (length response)); [discriminate|].
    destruct response as [|res response]; [discriminate|].
    destruct response; [|cbn [length] in *; lia].
    intros [= <- <-]. exists p0, rest, id, id', res, balance.
    repeat split; try assumption. now destruct res.
  - intros maxUnits'. exact H.
Qed.

End CallResults.

(** [multi_response_unsupported] in the simulated world: the stored
    program called with two arguments answers with two payloads. *)
Lemma multi_response_unsupported_witness :
  let c := Sim.loaded (Sim.call EndpointExecute [Sim.u64 "7"; Sim.u64 "8"]) in
  exists r resp',
    RunStep c Sim.w_prog = Returns r
    /\ ran_resp r = Some resp'
    /\ Resp_Error resp' = Some MultiResponse
    /\ Resp_Response resp' = None.
Proof.
  intros c.
  edestruct (multi_response_unsupported (collab := Sim.collab) c Sim.w_prog)
    as (_ & r & resp' & HR & _ & Hresp & _ & HE & HRes & _).
  - reflexivity.
  - right. split; [reflexivity | discriminate].
  - reflexivity.
  - reflexivity.
  - reflexivity.
  - vm_compute. lia.
  - exists r, resp'. repeat split; assumption.
Defined.

(** [empty_response_out_of_range] in the simulated world: the stored
    program called without arguments answers with no payload. *)
Lemma empty_response_out_of_range_witness :
  runStepFunc Sim.w_prog EndpointReadOnly 1000 "echo"
    [{| Param_Type := ParamType.ID; Param_Value := Sim.prog |}] (newResponse 1)
  = Panics (IndexOutOfRange 0 0).
Proof.
  eapply (proj1 (empty_response_out_of_range (collab := Sim.collab) Sim.w_prog _
                   EndpointReadOnly 1000 "echo"
                   {| Param_Type := ParamType.ID; Param_Value := Sim.prog |} []
                   (newResponse 1) Sim.prog _ [] _
                   (or_introl eq_refl) eq_refl eq_refl)).
  reflexivity.
Defined.

(** [readonly_dispatch] in the simulated world: a ReadOnly call with one
    argument, and a [maxUnits] of 1000. *)
Lemma readonly_dispatch_witness :
  exists db' resp',
    runStepFunc Sim.w_prog EndpointReadOnly 1000 "echo"
      [{| Param_Type := ParamType.ID; Param_Value := Sim.prog |}; Sim.u64 "7"]
      (newResponse 1) = Returns (db', resp', None)
    /\ Resp_Balance resp' = None
    /\ Resp_Response resp' = Some (Go.bytes_of_string "7").
Proof.
  pose (db' := fst (Sim.invoke Sim.w_prog Sim.prog [Sim.u64 "7"] "echo" Go.maxUint64)).
  pose (resp' := setTimestamp (setResponse (newResponse 1) (Go.bytes_of_string "7"))
                              (Sim.now Sim.w_prog)).
  assert (H : runStepFunc Sim.w_prog EndpointReadOnly 1000 "echo"
                [{| Param_Type := ParamType.ID; Param_Value := Sim.prog |}; Sim.u64 "7"]
                (newResponse 1) = Returns (db', resp', None)) by reflexivity.
  exists db', resp'. split; [exact H|]. split; [|reflexivity].
  exact (proj1 (readonly_dispatch (collab := Sim.collab) _ _ _ _ _ _ _ H)).
Defined.

(** ** Creating a key twice *)

Section KeyCreation.
Context {collab : Collaborators}.

(** The dispatcher tolerates the duplicate-name error of the key store:
    the step succeeds and the message reports the address of the key
    the store handed back with the error. *)
Lemma runStepFunc_key_duplicate (db db' : World) (maxUnits : Z) (method : string)
    (p0 : Param) (rest : list Param) (resp : Response) (key : PublicKey) (e : error) :
  keyCreateFunc db (Go.string_of_bytes (Param_Value p0)) = (db', (key, Some e)) ->
  errors_Is e ErrDuplicateKeyName = true ->
  runStepFunc db EndpointKey maxUnits method (p0 :: rest) resp
  = Returns (db',
             setTimestamp
               (setMsg resp ("created named key with address " +:+ utils_Address key))
               (time_Now_Unix db),
             None).
Proof.
  intros Hk He. unfold runStepFunc, runStepFunc_switch. now rewrite Hk, He.
Qed.

(** A Key step on a name the store already knows: resolution replaces
    the name by the address of its key, and the key store is asked to
    create a key for that text, not for the name. *)
Lemma RunStep_key_known_name (c : runCmd) (db db' : World) (s : Step)
    (value : list byte) (pk key : PublicKey) :
  step c = Some s ->
  Step_Endpoint s = EndpointKey ->
  Step_Params s
    = Some [{| Param_Type := ParamType.KeyEd25519; Param_Value := value |}] ->
  storage_GetPublicKey db (Go.string_of_bytes value) = inr (Some pk) ->
  AddressLen = S (length pk) ->
  keyCreateFunc db (Go.string_of_bytes (x00 :: pk)) = (db', (key, None)) ->
  RunStep c db
  = Returns {| ran_cmd := {| lastStep := Go.wrap_int (lastStep c + 1);
                             file := file c; planStep := planStep c;
                             step := step c;
                             programIDStrMap := programIDStrMap c |};
               ran_db := db';
               ran_resp :=
                 Some (setTimestamp
                         (setMsg (newResponse (lastStep c))
                                 ("created named key with address "
                                  +:+ utils_Address key))
                         (time_Now_Unix db));
               ran_err := None |}.
Proof.
  intros Hs He Hp Hpk Hlen Hk.
  assert (Hres : createCallParams c db
                   [{| Param_Type := ParamType.KeyEd25519; Param_Value := value |}]
                   EndpointKey
                 = Ok [{| Param_Type := ParamType.KeyEd25519;
                          Param_Value := x00 :: pk |}]).
  { rewrite createCallParams_cons. unfold resolveParam.
    cbn [Param_Type Param_Value]. rewrite Hpk, (key_address_exact pk Hlen).
    cbn [mbind exec_bind]. rewrite bytes_of_string_of_bytes.
    destruct (createCallParams c db [] EndpointKey) eqn:E; cbn in E |- *; congruence. }
  unfold RunStep. rewrite Hs, He, Hp. unfold default. cbn [from_option id].
  rewrite Hres.
  unfold runStepFunc, runStepFunc_switch. cbn [Param_Value]. now rewrite Hk.
Qed.

End KeyCreation.

(** C7 on the code: the Key step for the name [alice], run twice in the
    simulated world.  Both runs succeed.  The first creates the key of
    [alice] and reports its address.  The second finds that key during
    resolution, hands the address text to the key store as the name, and
    the store creates a second key under it: the two messages report
    different addresses, and the duplicate-name error is never raised. *)
Theorem key_step_twice :
  let text := "{endpoint: key, method: create, params: [{type: ed25519, value: alice}]}"%string in
  let c := Sim.fresh text "" in
  let after (n : Z) :=
    {| lastStep := n; file := Some ""%string; planStep := Some text;
       step := Some Sim.key_alice; programIDStrMap := ∅ |} in
  let report (i : Z) (key : PublicKey) (t : Z) :=
    setTimestamp
      (setMsg (newResponse i) ("created named key with address " +:+ utils_Address key))
      t in
  let w1 := fst (Sim.createNamedKey Sim.w0 "alice") in
  let w2 := fst (Sim.createNamedKey w1 (Go.string_of_bytes (x00 :: Sim.mint 0))) in
  Run c Sim.w0
  = Returns {| ran_cmd := after 1; ran_db := w1;
               ran_resp := Some (report 0 (Sim.mint 0) (Sim.now Sim.w0));
               ran_err := None |}
  /\ Run (after 1) w1
     = Returns {| ran_cmd := after 2; ran_db := w2;
                  ran_resp := Some (report 1 (Sim.mint 1) (Sim.now w1));
                  ran_err := None |}
  /\ utils_Address (Sim.mint 0) <> utils_Address (Sim.mint 1)
  /\ Sim.keys w2 !! "alice"%string = Some (Sim.mint 0)
  /\ Sim.keys w2 !! Go.string_of_bytes (x00 :: Sim.mint 0) = Some (Sim.mint 1).
Proof.
  intros text c after report w1 w2.
  split; [reflexivity|].
  split; [reflexivity|].
  split; [vm_compute; discriminate|].
  split; vm_compute; reflexivity.
Qed.

(** * Further properties of the code *)

(** ** The integer parser, read backwards *)

Lemma ParseUint_loop_range (s : string) (n v : Z) :
  Go.ParseUint_loop 4294967295 n s = (v, Some Go.ErrRange) -> v = 4294967295.
Proof.
  revert n. induction s as [|c s IH]; intros n; cbn [Go.ParseUint_loop].
  - discriminate.
  - repeat case_match; try discriminate; try (now intros [= <-]). apply IH.
Qed.

(** What the digit loop accepts is a numeral. *)
Lemma ParseUint_loop_sound (s : string) (n v : Z) :
  0 <= n <= 4294967295 ->
  Go.ParseUint_loop 4294967295 n s = (v, None) ->
  exists ds, Forall (fun d => (d < 10)%nat) ds /\ s = numeral ds
             /\ v = decimal_from n ds /\ v <= 4294967295.
Proof.
  revert n. induction s as [|c s IH]; intros n Hn; cbn [Go.ParseUint_loop].
  - intros [= <-]. exists []. split; [constructor|]. repeat split. lia.
  - set (b := Z.of_N (N_of_ascii c)).
    destruct (Z.leb_spec 48 b) as [H48|]; [|discriminate].
    destruct (Z.leb_spec b 57) as [H57|]; [|discriminate]. cbn [andb].
    change (Go.maxUint64 / 10 + 1) with 1844674407370955162.
    destruct (Z.leb_spec 1844674407370955162 n); [lia|].
    unfold Go.wrap_uint64. change (2 ^ 64) with 18446744073709551616.
    rewrite (Z.mod_small (n * 10)) by lia.
    rewrite (Z.mod_small (n * 10 + (b - 48))) by lia.
    destruct (Z.ltb_spec (n * 10 + (b - 48)) (n * 10)); [lia|]. cbn [orb].
    destruct (Z.ltb_spec 4294967295 (n * 10 + (b - 48))); [discriminate|].
    intros Hloop.
    destruct (IH (n * 10 + (b - 48)) ltac:(lia) Hloop) as (ds & Hds & -> & -> & Hv).
    exists (Z.to_nat (b - 48) :: ds). repeat split.
    + constructor; [lia | exact Hds].
    + cbn [numeral]. f_equal. unfold digit_char.
      replace (48 + Z.to_nat (b - 48))%nat with (nat_of_ascii c).
      * symmetry. apply ascii_nat_embedding.
      * unfold nat_of_ascii. subst b. lia.
    + cbn [decimal_from]. f_equal. lia.
    + exact Hv.
Qed.

(** What [ParseInt] accepts at base 10 and 32 bits is an optional sign and
    a numeral, and the value fits 32 bits. *)
Lemma ParseInt10_sound (s : string) (v : Z) :
  Go.ParseInt10 s 32 = (v, None) ->
  exists ds, is_digits ds
    /\ ((s = numeral ds \/ s = signed_numeral false ds) /\ v = decimal_value ds
        \/ s = signed_numeral true ds /\ v = - decimal_value ds)
    /\ - 2 ^ 31 <= v < 2 ^ 31.
Proof.
  unfold Go.ParseInt10. destruct s as [|c s]; [discriminate|].
  set (neg := Ascii.eqb c "-"). set (plus := Ascii.eqb c "+").
  set (digits := if plus || neg then s else String c s).
  unfold Go.ParseUint10. change (2 ^ 32 - 1) with 4294967295.
  change (2 ^ (32 - 1)) with 2147483648. change (2 ^ 31) with 2147483648.
  assert (Hloop : forall un,
    Go.ParseUint_loop 4294967295 0 digits = (un, None) -> digits <> EmptyString ->
    (if negb neg && (2147483648 <=? un) then (2147483647, Some Go.ErrRange)
     else if neg && (2147483648 <? un) then (-2147483648, Some Go.ErrRange)
     else (if neg then - un else un, None)) = (v, None) ->
    exists ds, is_digits ds
      /\ ((String c s = numeral ds \/ String c s = signed_numeral false ds)
          /\ v = decimal_value ds
          \/ String c s = signed_numeral true ds /\ v = - decimal_value ds)
      /\ -2147483648 <= v < 2147483648).
  { intros un Hun Hne Hv.
    destruct (ParseUint_loop_sound digits 0 un ltac:(lia) Hun)
      as (ds & Hds & Hdig & -> & _).
    fold (decimal_value ds) in *. pose proof (decimal_value_nonneg ds) as H0.
    assert (Hd : is_digits ds).
    { split; [|exact Hds]. intros ->. now apply Hne. }
    exists ds. split; [exact Hd|].
    subst digits. destruct neg eqn:Eneg; cbn [negb andb orb] in *.
    - rewrite orb_true_r in Hdig.
      destruct (Z.ltb_spec 2147483648 (decimal_value ds)); [discriminate|].
      injection Hv as <-. split; [|lia]. right. split; [|reflexivity].
      unfold signed_numeral. subst neg. apply Ascii.eqb_eq in Eneg. now subst.
    - destruct (Z.leb_spec 2147483648 (decimal_value ds)); [discriminate|].
      injection Hv as <-. split; [|lia]. left. split; [|reflexivity].
      rewrite orb_false_r in Hdig. destruct plus eqn:Eplus.
      + right. unfold signed_numeral. subst plus. apply Ascii.eqb_eq in Eplus.
        now subst.
      + now left. }
  destruct digits as [|c' s'] eqn:Edig.
  - discriminate.
  - destruct (Go.ParseUint_loop 4294967295 0 (String c' s')) as [un [[|]|]] eqn:Eun.
    + discriminate.
    + apply ParseUint_loop_range in Eun. subst un.
      destruct neg; cbn [negb andb]; discriminate.
    + intros Hv. apply (Hloop un eq_refl); [discriminate | exact Hv].
Qed.

(** [ParseInt] on a numeral with a sign. *)
Lemma ParseInt10_signed_numeral (neg : bool) (ds : list nat) :
  is_digits ds ->
  let v := if neg then - decimal_value ds else decimal_value ds in
  Go.ParseInt10 (signed_numeral neg ds) 32 =
    if (-2147483648 <=? v) && (v <? 2147483648) then (v, None)
    else (if neg then -2147483648 else 2147483647, Some Go.ErrRange).
Proof.
  intros [Hne Hds] v. subst v. pose proof (decimal_value_nonneg ds) as H0.
  unfold Go.ParseInt10, signed_numeral, Go.ParseUint10.
  change (2 ^ 32 - 1) with 4294967295. change (2 ^ (32 - 1)) with 2147483648.
  assert (Hnum : numeral ds <> EmptyString) by (destruct ds; [congruence|discriminate]).
  assert (Hloop := ParseUint_loop_numeral ds 0 Hds ltac:(lia)).
  fold (decimal_value ds) in Hloop.
  destruct neg; cbn [Ascii.eqb Bool.eqb orb negb andb];
    (destruct (numeral ds) eqn:En; [congruence|]); rewrite Hloop;
    destruct (Z.leb_spec (decimal_value ds) 4294967295);
    repeat match goal with
           | |- context [Z.leb ?a ?b] => destruct (Z.leb_spec a b)
           | |- context [Z.ltb ?a ?b] => destruct (Z.ltb_spec a b)
           end; cbn [andb]; try reflexivity; lia.
Qed.

(** ** Resolution: what a list becomes *)

Section ResolutionShape.
Context {collab : Collaborators}.
Variables (c : runCmd) (db : World) (endpoint : Endpoint).

Lemma resolveParam_supported (param p' : Param) :
  resolveParam c db endpoint param = Ok p' -> supported_type (Param_Type param) = true.
Proof. unfold resolveParam. destruct (Param_Type param); (discriminate || reflexivity). Qed.

Lemma resolveParam_kept (param p' : Param) :
  kept_as_is param = true -> resolveParam c db endpoint param = Ok p' -> p' = param.
Proof.
  unfold kept_as_is, resolveParam, no_step_prefix, Go.CutPrefix.
  destruct param as [t value]. cbn [Param_Type Param_Value].
  destruct t; try discriminate; try (now intros _ [= <-]);
    intros Hp; apply negb_true_iff in Hp; rewrite Hp;
    unfold ids_ToID; destruct (Nat.eqb (length value) 32);
    try (now intros [= <-]);
    destruct (os_Stat_NotExist _ _); try discriminate; now intros [= <-].
Qed.

Lemma createCallParams_length (params cp : list Param) :
  createCallParams c db params endpoint = Ok cp -> length cp = length params.
Proof.
  revert cp. induction params as [|param rest IH]; intros cp.
  - now intros [= <-].
  - rewrite createCallParams_cons.
    destruct (resolveParam c db endpoint param); try discriminate.
    cbn [mbind exec_bind].
    destruct (createCallParams c db rest endpoint) as [r| |]; try discriminate.
    cbn [mbind exec_bind]. intros [= <-]. cbn [length]. now rewrite (IH r).
Qed.

(** X1: a list that resolves keeps its length and, position by position,
    its types, and every type in it is one [createCallParams] has a case
    for. *)
Theorem createCallParams_shape (params cp : list Param) :
  createCallParams c db params endpoint = Ok cp ->
  length cp = length params
  /\ map Param_Type cp = map Param_Type params
  /\ forallb supported_type (map Param_Type params) = true.
Proof.
  revert cp. induction params as [|param rest IH]; intros cp.
  - intros [= <-]. repeat split.
  - rewrite createCallParams_cons.
    destruct (resolveParam c db endpoint param) as [p'| |] eqn:Hp; try discriminate.
    cbn [mbind exec_bind].
    destruct (createCallParams c db rest endpoint) as [r| |]; try discriminate.
    cbn [mbind exec_bind]. intros [= <-].
    destruct (IH r eq_refl) as (Hlen & Htypes & Hsup).
    cbn [length map forallb].
    rewrite Hlen, Htypes, Hsup, (resolveParam_type _ _ _ _ _ Hp),
      (resolveParam_supported _ _ Hp).
    repeat split.
Qed.

(** X2: a [Uint64] or [Bool] parameter, and a [String] or [ID] parameter
    without the [step_] prefix, stands unchanged at its place in every
    list that resolves, whatever the store, the files and the table of
    identifiers hold. *)
Theorem createCallParams_keeps (pre post cp_pre cp : list Param) (param : Param) :
  kept_as_is param = true ->
  createCallParams c db pre endpoint = Ok cp_pre ->
  createCallParams c db (pre ++ param :: post) endpoint = Ok cp ->
  exists rest,
    createCallParams c db post endpoint = Ok rest
    /\ cp = cp_pre ++ param :: rest
    /\ cp !! length pre = Some param.
Proof.
  intros Hkept Hpre. rewrite (createCallParams_app c db endpoint pre param post cp_pre Hpre).
  destruct (resolveParam c db endpoint param) as [p'| |] eqn:Hp; try discriminate.
  apply (resolveParam_kept _ _ Hkept) in Hp. subst p'. cbn [mbind exec_bind].
  destruct (createCallParams c db post endpoint) as [rest| |]; try discriminate.
  cbn [mbind exec_bind]. intros [= <-]. exists rest. repeat split.
  rewrite <- (createCallParams_length pre cp_pre Hpre).
  apply list_lookup_middle. reflexivity.
Qed.

(** X3: a [String] or [ID] value without the [step_] prefix is an
    identifier when it is 32 bytes long, and then the files are not
    looked at; any other length makes it a path, and resolution fails
    with the path error when no such file exists. *)
Theorem createCallParams_path (pre post cp_pre : list Param) (param : Param) :
  Param_Type param = ParamType.String \/ Param_Type param = ParamType.ID ->
  no_step_prefix (Param_Value param) = true ->
  createCallParams c db pre endpoint = Ok cp_pre ->
  let resolution := createCallParams c db (pre ++ param :: post) endpoint in
  let kept := r ← createCallParams c db post endpoint; Ok (cp_pre ++ param :: r) in
  (length (Param_Value param) = 32%nat -> resolution = kept)
  /\ (length (Param_Value param) <> 32%nat ->
      resolution =
        if os_Stat_NotExist db (Go.string_of_bytes (Param_Value param))
        then Err PathNotExists else kept).
Proof.
  intros Ht Hp Hpre resolution kept. subst resolution kept.
  rewrite (createCallParams_app c db endpoint pre param post cp_pre Hpre).
  unfold resolveParam, Go.CutPrefix. unfold no_step_prefix in Hp.
  apply negb_true_iff in Hp. destruct param as [t value].
  cbn [Param_Type Param_Value] in *. unfold ids_ToID.
  split; intros Hlen.
  - apply Nat.eqb_eq in Hlen. destruct Ht as [-> | ->]; now rewrite Hp, Hlen.
  - apply Nat.eqb_neq in Hlen.
    destruct Ht as [-> | ->]; rewrite Hp, Hlen;
      destruct (os_Stat_NotExist _ _); reflexivity.
Qed.

End ResolutionShape.

(** ** The [step_] prefix *)

Section StepPrefix.
Context {collab : Collaborators}.
Variables (c : runCmd) (db : World) (endpoint : Endpoint).

(** A value with the prefix is parsed as a reference, and as nothing
    else. *)
Lemma resolveParam_step_prefix (param : Param) (text : string) :
  Param_Type param = ParamType.String \/ Param_Type param = ParamType.ID ->
  Go.string_of_bytes (Param_Value param) = "step_" +:+ text ->
  resolveParam c db endpoint param =
    match Go.ParseInt10 text 32 with
    | (_, Some cause) => Err (NumError text cause)
    | (id, None) =>
        match programIDStrMap c !! id with
        | None => Err (FailedToMap ("step_" +:+ text))
        | Some programID =>
            Ok {| Param_Type := Param_Type param; Param_Value := programID |}
        end
    end.
Proof.
  intros Ht Hv. unfold resolveParam. rewrite Hv, CutPrefix_app.
  destruct Ht as [-> | ->]; reflexivity.
Qed.

(** X4: a [String] or [ID] value that starts with [step_] is never read
    as an identifier or as a path.  When the list resolves, the text
    behind the prefix is a decimal numeral, with or without a sign, its
    value fits 32 bits, and the parameter has become the identifier the
    table holds at that index; on its own, the parameter fails with the
    parser's error or with the failed-to-map error, and with no other. *)
Theorem step_prefix_sound (pre post cp_pre : list Param) (param : Param)
    (text : string) :
  Param_Type param = ParamType.String \/ Param_Type param = ParamType.ID ->
  Go.string_of_bytes (Param_Value param) = "step_" +:+ text ->
  createCallParams c db pre endpoint = Ok cp_pre ->
  (forall cp, createCallParams c db (pre ++ param :: post) endpoint = Ok cp ->
     exists ds v programID rest,
       is_digits ds
       /\ ((text = numeral ds \/ text = signed_numeral false ds) /\ v = decimal_value ds
           \/ text = signed_numeral true ds /\ v = - decimal_value ds)
       /\ - 2 ^ 31 <= v < 2 ^ 31
       /\ programIDStrMap c !! v = Some programID
       /\ cp = cp_pre ++ {| Param_Type := Param_Type param;
                            Param_Value := programID |} :: rest)
  /\ match createCallParams c db (pre ++ [param]) endpoint with
     | Ok _ => True
     | Err e => (exists cause, e = NumError text cause)
                \/ e = FailedToMap ("step_" +:+ text)
     | Panic _ => False
     end.
Proof.
  intros Ht Hv Hpre. split.
  - intros cp. rewrite (createCallParams_app c db endpoint pre param post cp_pre Hpre).
    rewrite (resolveParam_step_prefix param text Ht Hv).
    destruct (Go.ParseInt10 text 32) as [v [cause|]] eqn:Hparse; [discriminate|].
    destruct (programIDStrMap c !! v) as [programID|] eqn:Hid; [|discriminate].
    cbn [mbind exec_bind].
    destruct (createCallParams c db post endpoint) as [rest| |]; try discriminate.
    cbn [mbind exec_bind]. intros [= <-].
    destruct (ParseInt10_sound text v Hparse) as (ds & Hds & Hform & Hrange).
    exists ds, v, programID, rest.
    split; [exact Hds|]. split; [exact Hform|]. split; [exact Hrange|].
    split; [exact Hid | reflexivity].
  - rewrite (createCallParams_app c db endpoint pre param [] cp_pre Hpre).
    rewrite (resolveParam_step_prefix param text Ht Hv).
    destruct (Go.ParseInt10 text 32) as [v [cause|]]; cbn; [eauto|].
    destruct (programIDStrMap c !! v); cbn; auto.
Qed.

(** X5: the numeral of a reference may carry a sign.  With [+] the
    reference is to the index the numeral denotes, with [-] to its
    negation, as long as that fits 32 bits; beyond, the parser's range
    error is returned.  A table that holds entries for earlier steps
    only holds nothing at a negative index. *)
Theorem signed_step_reference (pre post cp_pre : list Param) (t : ParamType.t)
    (neg : bool) (ds : list nat) :
  t = ParamType.String \/ t = ParamType.ID ->
  is_digits ds ->
  createCallParams c db pre endpoint = Ok cp_pre ->
  let text := "step_" +:+ signed_numeral neg ds in
  let param := {| Param_Type := t; Param_Value := Go.bytes_of_string text |} in
  let v := if neg then - decimal_value ds else decimal_value ds in
  let resolution := createCallParams c db (pre ++ param :: post) endpoint in
  (- 2 ^ 31 <= v < 2 ^ 31 ->
     resolution =
       match programIDStrMap c !! v with
       | Some programID =>
           r ← createCallParams c db post endpoint;
           Ok (cp_pre ++ {| Param_Type := t; Param_Value := programID |} :: r)
       | None => Err (FailedToMap text)
       end)
  /\ (~ - 2 ^ 31 <= v < 2 ^ 31 ->
      resolution = Err (NumError (signed_numeral neg ds) Go.ErrRange))
  /\ (ledger_below c -> - 2 ^ 31 <= v < 0 -> resolution = Err (FailedToMap text)).
Proof.
  intros Ht Hds Hpre text param v resolution. subst resolution.
  rewrite (createCallParams_app c db endpoint pre param post cp_pre Hpre).
  rewrite (resolveParam_step_prefix param (signed_numeral neg ds));
    [| exact Ht | apply string_of_bytes_of_string].
  rewrite (ParseInt10_signed_numeral neg ds Hds). fold v.
  change (2 ^ 31) with 2147483648. cbn [Param_Type param].
  split; [|split].
  - intros [Hlo Hhi].
    destruct (Z.leb_spec (-2147483648) v); [|lia].
    destruct (Z.ltb_spec v 2147483648); [|lia]. cbn [andb].
    destruct (programIDStrMap c !! v); reflexivity.
  - intros Hout.
    destruct (Z.leb_spec (-2147483648) v); destruct (Z.ltb_spec v 2147483648);
      cbn [andb]; try reflexivity. lia.
  - intros Hbelow [Hlo Hhi].
    destruct (Z.leb_spec (-2147483648) v); [|lia].
    destruct (Z.ltb_spec v 2147483648); [|lia]. cbn [andb].
    destruct (programIDStrMap c !! v) eqn:E; [|reflexivity].
    apply Hbelow in E. lia.
Qed.

End StepPrefix.

(** [createCallParams_shape] on an identifier and a number. *)
Lemma createCallParams_shape_witness :
  let params := [{| Param_Type := ParamType.ID; Param_Value := Sim.prog |}; Sim.u64 "7"] in
  length params = length params
  /\ map Param_Type params = map Param_Type params
  /\ forallb supported_type (map Param_Type params) = true.
Proof.
  intros params.
  exact (createCallParams_shape (collab := Sim.collab) (Sim.fresh "" "") Sim.w0
           EndpointExecute params params eq_refl).
Defined.

(** [createCallParams_keeps] on the path of a file that exists. *)
Lemma createCallParams_keeps_witness :
  let param := {| Param_Type := ParamType.String;
                  Param_Value := Go.bytes_of_string "./mod.bin" |} in
  exists rest,
    createCallParams (Sim.fresh "" "") Sim.w0 [] EndpointExecute = Ok rest
    /\ [param] = [] ++ param :: rest
    /\ [param] !! length (@nil Param) = Some param.
Proof.
  intros param.
  exact (createCallParams_keeps (collab := Sim.collab) (Sim.fresh "" "") Sim.w0
           EndpointExecute [] [] [] [param] param eq_refl eq_refl eq_refl).
Defined.

(** [createCallParams_path] on the path of a file that does not exist, and
    on a 32-byte value. *)
Lemma createCallParams_path_witness :
  createCallParams (Sim.fresh "" "") Sim.w0
    [{| Param_Type := ParamType.String;
        Param_Value := Go.bytes_of_string "./missing.bin" |}] EndpointExecute
  = Err PathNotExists
  /\ createCallParams (Sim.fresh "" "") Sim.w0
       [{| Param_Type := ParamType.ID; Param_Value := Sim.prog |}] EndpointExecute
     = Ok [{| Param_Type := ParamType.ID; Param_Value := Sim.prog |}].
Proof.
  split.
  - apply (proj2 (createCallParams_path (collab := Sim.collab) (Sim.fresh "" "") Sim.w0
                    EndpointExecute [] [] []
                    {| Param_Type := ParamType.String;
                       Param_Value := Go.bytes_of_string "./missing.bin" |}
                    (or_introl eq_refl) eq_refl eq_refl)).
    vm_compute. intros H. discriminate H.
  - apply (proj1 (createCallParams_path (collab := Sim.collab) (Sim.fresh "" "") Sim.w0
                    EndpointExecute [] [] []
                    {| Param_Type := ParamType.ID; Param_Value := Sim.prog |}
                    (or_intror eq_refl) eq_refl eq_refl)).
    reflexivity.
Defined.

(** [step_prefix_sound] on [step_0], with an identifier recorded at
    index 0. *)
Lemma step_prefix_sound_witness :
  let param := {| Param_Type := ParamType.ID;
                  Param_Value := Go.bytes_of_string "step_0" |} in
  exists ds v programID rest,
    is_digits ds
    /\ (("0"%string = numeral ds \/ "0"%string = signed_numeral false ds)
        /\ v = decimal_value ds
        \/ "0"%string = signed_numeral true ds /\ v = - decimal_value ds)
    /\ - 2 ^ 31 <= v < 2 ^ 31
    /\ programIDStrMap (Sim.loaded Sim.key_alice) !! v = Some programID
    /\ [{| Param_Type := ParamType.ID; Param_Value := Sim.prog |}]
       = [] ++ {| Param_Type := Param_Type param; Param_Value := programID |} :: rest.
Proof.
  intros param.
  exact (proj1 (step_prefix_sound (collab := Sim.collab) (Sim.loaded Sim.key_alice)
                  Sim.w0 EndpointExecute [] [] [] param "0"
                  (or_intror eq_refl) eq_refl eq_refl)
               [{| Param_Type := ParamType.ID; Param_Value := Sim.prog |}] eq_refl).
Defined.

(** [signed_step_reference] on [step_+0] and [step_-0], with an
    identifier recorded at index 0, and on [step_-1]. *)
Lemma signed_step_reference_witness :
  let c := Sim.loaded Sim.key_alice in
  let ref text := [{| Param_Type := ParamType.ID;
                      Param_Value := Go.bytes_of_string text |}] in
  createCallParams c Sim.w0 (ref "step_+0"%string) EndpointExecute
  = Ok [{| Param_Type := ParamType.ID; Param_Value := Sim.prog |}]
  /\ createCallParams c Sim.w0 (ref "step_-0"%string) EndpointExecute
     = Ok [{| Param_Type := ParamType.ID; Param_Value := Sim.prog |}]
  /\ createCallParams c Sim.w0 (ref "step_-1"%string) EndpointExecute
     = Err (FailedToMap "step_-1").
Proof.
  intros c ref.
  assert (D0 : is_digits [0%nat]) by (split; [discriminate | repeat constructor]).
  assert (D1 : is_digits [1%nat]) by (split; [discriminate | repeat constructor]).
  assert (R0 : - 2 ^ 31 <= 0 < 2 ^ 31) by (vm_compute; split; [intros H; discriminate H | reflexivity]).
  assert (R1 : - 2 ^ 31 <= - 1 < 2 ^ 31) by (vm_compute; split; [intros H; discriminate H | reflexivity]).
  split; [|split].
  - exact (proj1 (signed_step_reference (collab := Sim.collab) c Sim.w0 EndpointExecute
                    [] [] [] ParamType.ID false [0%nat] (or_intror eq_refl) D0 eq_refl) R0).
  - exact (proj1 (signed_step_reference (collab := Sim.collab) c Sim.w0 EndpointExecute
                    [] [] [] ParamType.ID true [0%nat] (or_intror eq_refl) D0 eq_refl) R0).
  - exact (proj1 (signed_step_reference (collab := Sim.collab) c Sim.w0 EndpointExecute
                    [] [] [] ParamType.ID true [1%nat] (or_intror eq_refl) D1 eq_refl) R1).
Defined.

(** ** Dispatch: what the response and the table show *)

Section DispatchFacts.
Context {collab : Collaborators}.

(** Only a successful Execute dispatch reports an identifier. *)
Lemma runStepFunc_txid (db db' : World) (endpoint : Endpoint) (maxUnits : Z)
    (method : string) (params : list Param) (resp resp' : Response)
    (err : option error) :
  runStepFunc db endpoint maxUnits method params resp = Returns (db', resp', err) ->
  (endpoint = EndpointExecute /\ err = None
   /\ exists id, Resp_TxID resp' = Some (ID_String id))
  \/ Resp_TxID resp' = Resp_TxID resp.
Proof.
  unfold runStepFunc, runStepFunc_switch. intros H.
  repeat case_match; simplify_eq; cbn; eauto 6.
Qed.

(** X6: the timestamp of a dispatch that returns is the clock at its
    entry: the deferred [setTimestamp] got its argument when the [defer]
    statement ran, and it overwrites the stamp a program creation sets
    from the clock after the loader's work. *)
Theorem runStepFunc_timestamp (db db' : World) (endpoint : Endpoint) (maxUnits : Z)
    (method : string) (params : list Param) (resp resp' : Response)
    (err : option error) :
  runStepFunc db endpoint maxUnits method params resp = Returns (db', resp', err) ->
  Resp_Timestamp resp' = time_Now_Unix db
  /\ (endpoint = EndpointExecute -> String.eqb method ProgramCreate = true ->
      err = None ->
      exists resp1, runStepFunc_switch db endpoint maxUnits method params resp
                    = Returns (db', resp1, None)
                    /\ Resp_Timestamp resp1 = time_Now_Unix db').
Proof.
  unfold runStepFunc. intros H.
  destruct (runStepFunc_switch db endpoint maxUnits method params resp)
    as [[[db1 resp1] err1]|] eqn:Hs; [|discriminate].
  injection H as <- <- <-. split; [reflexivity|].
  intros -> Hm ->. exists resp1. split; [reflexivity|].
  revert Hs. unfold runStepFunc_switch. rewrite Hm.
  repeat case_match; intros; simplify_eq. reflexivity.
Qed.

(** X7: a response that carries an error carries nothing else: no
    message, no identifier, no result and no balance; and [RunStep] then
    returns no error of its own. *)
Theorem RunStep_failed_response (c : runCmd) (db : World) (r : ran)
    (resp : Response) (e : error) :
  RunStep c db = Returns r ->
  ran_resp r = Some resp ->
  Resp_Error resp = Some e ->
  Resp_Msg resp = None /\ Resp_TxID resp = None /\ Resp_Response resp = None
  /\ Resp_Balance resp = None /\ Resp_ID resp = lastStep c /\ ran_err r = None.
Proof.
  unfold RunStep. intros HR Hresp He.
  destruct (step c) as [s|]; [|discriminate].
  destruct (createCallParams _ _ _ _) as [params| |]; try discriminate.
  - destruct (runStepFunc _ _ _ _ _ _) as [[[db' resp1] err]|] eqn:Hd; [|discriminate].
    destruct err as [e0|].
    + apply runStepFunc_failed in Hd. subst resp1. cbn in HR.
      injection HR as <-. cbn in Hresp. injection Hresp as <-. repeat split.
    + destruct (runStepFunc_frame _ _ _ _ _ _ _ _ _ Hd) as (Herr & _).
      cbn in Herr. revert HR. unfold getTxID.
      repeat case_match; intros; simplify_eq; cbn in *; congruence.
  - injection HR as <-. cbn in Hresp. injection Hresp as <-. discriminate.
Qed.

(** X8: [RunStep] writes the table of identifiers at the index of the
    step it ran and nowhere else, and not even there unless an Execute
    step has succeeded: a Key step, a ReadOnly step, a step whose
    response carries an error and a step [RunStep] returns an error for
    leave the table as it was. *)
Theorem RunStep_ledger_frame (c : runCmd) (db : World) (r : ran) :
  RunStep c db = Returns r ->
  (forall k, k <> lastStep c ->
     programIDStrMap (ran_cmd r) !! k = programIDStrMap c !! k)
  /\ (forall s, step c = Some s -> Step_Endpoint s <> EndpointExecute ->
        programIDStrMap (ran_cmd r) = programIDStrMap c)
  /\ (forall resp e, ran_resp r = Some resp -> Resp_Error resp = Some e ->
        programIDStrMap (ran_cmd r) = programIDStrMap c)
  /\ (ran_err r <> None -> programIDStrMap (ran_cmd r) = programIDStrMap c).
Proof.
  unfold RunStep. intros HR.
  destruct (step c) as [s|] eqn:Hs; [|discriminate].
  destruct (createCallParams _ _ _ _) as [params| |]; try discriminate;
    [|injection HR as <-; repeat split; cbn; congruence].
  destruct (runStepFunc _ _ _ _ _ _) as [[[db' resp1] err]|] eqn:Hd; [|discriminate].
  pose proof (runStepFunc_txid _ _ _ _ _ _ _ _ _ Hd) as Htx.
  pose proof (runStepFunc_frame _ _ _ _ _ _ _ _ _ Hd) as (Herr & _).
  cbn in Htx, Herr. unfold getTxID in HR.
  assert (Htx' : Resp_TxID (match err with Some e => setError resp1 e | None => resp1 end)
                 = Resp_TxID resp1) by now destruct err.
  rewrite Htx' in HR.
  destruct (Resp_TxID resp1) as [txID|] eqn:Etx.
  - destruct Htx as [(Hep & -> & _) | ?]; [|discriminate].
    destruct (ids_FromString txID) as [e'|id].
    + injection HR as <-. repeat split; cbn; congruence.
    + injection HR as <-. cbn. split; [|split; [|split]].
      * intros k Hk. now rewrite lookup_insert_ne.
      * intros s' [= <-] Hne. congruence.
      * intros resp e [= <-]. congruence.
      * congruence.
  - injection HR as <-. repeat split; cbn; congruence.
Qed.

End DispatchFacts.

(** ** From a recorded identifier to a later reference *)

Section Recording.
Context {collab : Collaborators}.

(** A successful Execute dispatch reports the identifier the loader or
    the interpreter returned. *)
Lemma runStepFunc_execute_ok (db db' : World) (maxUnits : Z) (method : string)
    (params : list Param) (resp resp' : Response) :
  runStepFunc db EndpointExecute maxUnits method params resp
    = Returns (db', resp', None) ->
  exists p0 rest id,
    params = p0 :: rest
    /\ Resp_TxID resp' = Some (ID_String id)
    /\ if String.eqb method ProgramCreate
       then programCreateFunc db (Go.string_of_bytes (Param_Value p0)) = (db', inr id)
       else exists id0 res balance,
              ids_ToID (Param_Value p0) = inr id0
              /\ programExecuteFunc db id0 rest method maxUnits
                 = (db', inr (id, [res], balance)).
Proof.
  unfold runStepFunc, runStepFunc_switch.
  destruct (String.eqb method ProgramCreate).
  - destruct params as [|p0 rest]; [discriminate|].
    destruct (programCreateFunc _ _) as [db1 [e|id]] eqn:E; [discriminate|].
    intros [= <- <-]. exists p0, rest, id. repeat split. exact E.
  - destruct params as [|p0 rest]; [discriminate|].
    destruct (ids_ToID _) as [e|id0] eqn:E0; [discriminate|].
    change (skipn 1 (p0 :: rest)) with rest.
    destruct (programExecuteFunc _ _ _ _ _) as [db1 [e|[[id response] balance]]] eqn:E;
      [discriminate|].
    destruct (Nat.ltb_spec 1 (length response)); [discriminate|].
    destruct response as [|res [|]]; [discriminate| |cbn [length] in *; lia].
    intros [= <- <-]. exists p0, rest, id. split; [reflexivity|].
    split; [now destruct res|]. exists id0, res, balance. now split.
Qed.

(** X9: when an Execute step succeeds, [RunStep] records the identifier
    the loader (for a program creation) or the interpreter (for a call)
    returned at the index of the step, and from then on a reference
    [step_N] to that index, below [2^31], resolves to exactly that
    identifier, for every store and endpoint.  The text of an identifier
    is taken to decode to the identifier. *)
Theorem recorded_identifier_is_referable (c : runCmd) (db db' : World) (s : Step)
    (params : list Param) (resp : Response) :
  (forall id, ids_FromString (ID_String id) = inr id) ->
  step c = Some s ->
  Step_Endpoint s = EndpointExecute ->
  createCallParams c db (default [] (Step_Params s)) (Step_Endpoint s) = Ok params ->
  runStepFunc db (Step_Endpoint s) (Step_MaxUnits s) (Step_Method s) params
              (newResponse (lastStep c)) = Returns (db', resp, None) ->
  exists r p0 rest id,
    RunStep c db = Returns r
    /\ ran_err r = None
    /\ ran_resp r = Some resp
    /\ params = p0 :: rest
    /\ (if String.eqb (Step_Method s) ProgramCreate
        then programCreateFunc db (Go.string_of_bytes (Param_Value p0)) = (db', inr id)
        else exists id0 res balance,
               ids_ToID (Param_Value p0) = inr id0
               /\ programExecuteFunc db id0 rest (Step_Method s) (Step_MaxUnits s)
                  = (db', inr (id, [res], balance)))
    /\ programIDStrMap (ran_cmd r) = <[lastStep c := id]> (programIDStrMap c)
    /\ (forall (db2 : World) (endpoint : Endpoint) (t : ParamType.t) (ds : list nat),
          t = ParamType.String \/ t = ParamType.ID ->
          is_digits ds ->
          decimal_value ds = lastStep c ->
          lastStep c < 2 ^ 31 ->
          createCallParams (ran_cmd r) db2 [step_reference t ds] endpoint
          = Ok [{| Param_Type := t; Param_Value := id |}]).
Proof.
  intros Hcodec Hs He Hp Hd. rewrite He in Hd, Hp.
  destruct (runStepFunc_execute_ok _ _ _ _ _ _ _ Hd) as (p0 & rest & id & -> & Htx & Hfrom).
  eexists _, p0, rest, id.
  split.
  { unfold RunStep. rewrite Hs, He, Hp, Hd. unfold getTxID. rewrite Htx, Hcodec.
    reflexivity. }
  cbn [ran_err ran_resp ran_cmd programIDStrMap].
  repeat (split; [first [reflexivity | exact Hfrom]|]).
  intros db2 endpoint t ds Ht Hds Hv Hlt.
  rewrite createCallParams_cons, (resolveParam_step_reference _ _ _ t ds Ht Hds).
  change (2 ^ 31) with 2147483648 in Hlt. rewrite Hv.
  destruct (Z.ltb_spec (lastStep c) 2147483648); [|lia].
  cbn [programIDStrMap]. now rewrite lookup_insert_eq.
Qed.

End Recording.

(** ** [Init] and [Run] *)

Section RunFacts.
Context {collab : Collaborators}.

Lemma Init_frame (c c' : runCmd) (db : World) (err : option error) :
  Init c db = Returns (c', err) ->
  lastStep c' = lastStep c /\ programIDStrMap c' = programIDStrMap c
  /\ file c' = file c /\ planStep c' = planStep c.
Proof.
  unfold Init. cbv zeta. intros H.
  repeat case_match; simplify_eq; repeat split; cbn; congruence.
Qed.

Lemma RunStep_cases (c : runCmd) (db : World) (r : ran) :
  RunStep c db = Returns r ->
  match ran_err r with
  | Some _ => ran_cmd r = c
  | None =>
      lastStep (ran_cmd r) = Go.wrap_int (lastStep c + 1)
      /\ exists resp, ran_resp r = Some resp /\ Resp_ID resp = lastStep c
  end.
Proof.
  unfold RunStep. intros HR.
  destruct (step c) as [s|]; [|discriminate].
  destruct (createCallParams _ _ _ _) as [params| |]; try discriminate;
    [|now injection HR as <-].
  destruct (runStepFunc _ _ _ _ _ _) as [[[db' resp1] err]|] eqn:Hd; [|discriminate].
  destruct (runStepFunc_frame _ _ _ _ _ _ _ _ _ Hd) as (_ & Hid & _). cbn in Hid.
  assert (Hid' : Resp_ID (match err with Some e => setError resp1 e | None => resp1 end)
                 = lastStep c) by now destruct err.
  revert HR. repeat case_match; intros; simplify_eq; cbn; eauto.
Qed.

(** X10: [Init] loads the step and touches nothing else of the command:
    the counter, the table and the two flags are as they were; when it
    returns no error a step is loaded.  It cannot panic on a command
    whose file flag is not nil, as [New] leaves it. *)
Theorem Init_keeps_state (c : runCmd) (db : World) :
  (file c <> None -> forall p, Init c db <> Panics p)
  /\ (forall c' err, Init c db = Returns (c', err) ->
        lastStep c' = lastStep c /\ programIDStrMap c' = programIDStrMap c
        /\ file c' = file c /\ planStep c' = planStep c
        /\ (err = None -> exists s, step c' = Some s)).
Proof.
  split.
  - unfold Init. cbv zeta. intros Hf p. destruct (file c); [|congruence].
    repeat case_match; discriminate.
  - intros c' err H. destruct (Init_frame _ _ _ _ H) as (H1 & H2 & H3 & H4).
    repeat (split; [assumption|]). intros ->. revert H. unfold Init. cbv zeta.
    repeat case_match; intros; simplify_eq; cbn; eauto.
Qed.

(** X11: [Run] advances the counter exactly when it returns no error.
    With an error it returns [newResponse(0)], whatever the index of the
    step, and the counter and the table of identifiers are as they were;
    without, the response carries the index of the step and the counter
    is the 64-bit successor. *)
Theorem Run_error_or_advance (c : runCmd) (db : World) (r : ran) :
  Run c db = Returns r ->
  match ran_err r with
  | Some _ =>
      ran_resp r = Some (newResponse 0)
      /\ lastStep (ran_cmd r) = lastStep c
      /\ programIDStrMap (ran_cmd r) = programIDStrMap c
  | None =>
      lastStep (ran_cmd r) = Go.wrap_int (lastStep c + 1)
      /\ exists resp, ran_resp r = Some resp /\ Resp_ID resp = lastStep c
  end.
Proof.
  unfold Run. intros HR.
  destruct (Init c db) as [[c1 [e|]]|] eqn:HI; [| |discriminate].
  - destruct (Init_frame _ _ _ _ HI) as (H1 & H2 & _). injection HR as <-. now cbn.
  - destruct (Init_frame _ _ _ _ HI) as (H1 & H2 & _).
    destruct (Verify c1) as [[]|e|]; [| |discriminate].
    + destruct (RunStep c1 db) as [r0|] eqn:HS; [|discriminate].
      pose proof (RunStep_cases _ _ _ HS) as Hc.
      destruct (ran_err r0) as [e|] eqn:He.
      * injection HR as <-. cbn. rewrite Hc. auto.
      * injection HR as <-. rewrite He. now rewrite <- H1.
    + injection HR as <-. now cbn.
Qed.

End RunFacts.

(** ** Validation, and what it buys the dispatcher *)

Section ValidationFacts.
Context {collab : Collaborators}.

Lemma verifyEndpoint_fits (i : Z) (s : Step) (p0 : Param) (rest : list Param) :
  Step_Params s = Some (p0 :: rest) ->
  verifyEndpoint i s =
    if first_param_fits (Step_Endpoint s) (Step_Method s) (Param_Type p0) then Ok ()
    else match Step_Endpoint s with
         | EndpointKey => Err (FirstParamKey i)
         | EndpointReadOnly => Err (FirstParam i ErrFirstParamRequiredID)
         | EndpointExecute =>
             if String.eqb (Step_Method s) ProgramCreate
             then Err (FirstParam i ErrFirstParamRequiredString)
             else Err (FirstParam i ErrFirstParamRequiredID)
         | EndpointOther _ => Err (InvalidEndpoint (Step_Endpoint s))
         end.
Proof.
  intros Hp. unfold verifyEndpoint, first_param_fits. rewrite Hp. cbn [default from_option id].
  unfold default. cbn [from_option id].
  destruct (Step_Endpoint s); try reflexivity.
  - destruct (ParamType.eqb (Param_Type p0) ParamType.KeyEd25519),
      (ParamType.eqb (Param_Type p0) ParamType.KeySecp256k1); reflexivity.
  - destruct (String.eqb (Step_Method s) ProgramCreate);
      destruct (ParamType.eqb (Param_Type p0) _); reflexivity.
  - destruct (ParamType.eqb (Param_Type p0) ParamType.ID); reflexivity.
Qed.

(** A command [Verify] accepts has a step with a first parameter. *)
Lemma Verify_ok_params (c : runCmd) :
  Verify c = Ok () ->
  exists s p0 rest, step c = Some s /\ Step_Params s = Some (p0 :: rest).
Proof.
  unfold Verify. destruct (step c) as [s|]; [|discriminate].
  destruct (Step_Params s) as [[|p0 rest]|] eqn:Hp; try discriminate.
  - unfold verifyEndpoint. rewrite Hp. discriminate.
  - intros _. exists s, p0, rest. auto.
Qed.

(** X12: [Verify] accepts exactly the commands with a step loaded whose
    parameters are not empty and whose first parameter has a type that
    fits: a key type for the Key endpoint, [ID] for ReadOnly and for an
    Execute call, [String] for a program creation.  The parameters after
    the first are not looked at. *)
Theorem Verify_accepts_iff (c : runCmd) :
  Verify c = Ok () <->
  exists s p0 rest,
    step c = Some s
    /\ Step_Params s = Some (p0 :: rest)
    /\ first_param_fits (Step_Endpoint s) (Step_Method s) (Param_Type p0) = true.
Proof.
  unfold Verify. split.
  - destruct (step c) as [s|]; [|discriminate].
    destruct (Step_Params s) as [[|p0 rest]|] eqn:Hp; try discriminate.
    + unfold verifyEndpoint. rewrite Hp. discriminate.
    + rewrite (verifyEndpoint_fits _ s p0 rest Hp).
      destruct (first_param_fits _ _ _) eqn:Hfit.
      * intros _. exists s, p0, rest. auto.
      * repeat case_match; discriminate.
  - intros (s & p0 & rest & -> & Hp & Hfit).
    rewrite Hp, (verifyEndpoint_fits _ s p0 rest Hp), Hfit. reflexivity.
Qed.

(** X13: the errors of [Verify].  A command without a step fails with an
    error that wraps [ErrInvalidPlan]; a step without parameters or with
    a first parameter of the wrong type fails with one that wraps
    [ErrInvalidStep], and for the wrong type [ErrInvalidParamType] too;
    an endpoint that is not known fails with one that wraps
    [ErrInvalidEndpoint] and does not wrap [ErrInvalidStep]. *)
Theorem Verify_error_kinds (c : runCmd) (e : error) :
  Verify c = Err e ->
  (step c = None /\ errors_Is e ErrInvalidPlan = true)
  \/ (exists s, step c = Some s /\ Step_Params s = None
                /\ errors_Is e ErrInvalidStep = true
                /\ errors_Is e ErrInvalidParamType = false)
  \/ (exists s name, step c = Some s /\ Step_Endpoint s = EndpointOther name
                     /\ e = InvalidEndpoint (EndpointOther name)
                     /\ errors_Is e ErrInvalidEndpoint = true
                     /\ errors_Is e ErrInvalidStep = false)
  \/ (exists s p0 rest, step c = Some s /\ Step_Params s = Some (p0 :: rest)
                        /\ first_param_fits (Step_Endpoint s) (Step_Method s)
                                            (Param_Type p0) = false
                        /\ errors_Is e ErrInvalidStep = true
                        /\ errors_Is e ErrInvalidParamType = true
                        /\ errors_Is e ErrInvalidEndpoint = false).
Proof.
  unfold Verify. destruct (step c) as [s|] eqn:Hs; [|intros [= <-]; left; auto].
  destruct (Step_Params s) as [[|p0 rest]|] eqn:Hp.
  - unfold verifyEndpoint. rewrite Hp. discriminate.
  - rewrite (verifyEndpoint_fits _ s p0 rest Hp).
    destruct (first_param_fits _ _ _) eqn:Hfit; [discriminate|].
    destruct (Step_Endpoint s) as [| | |name] eqn:He.
    + intros [= <-]. do 3 right. exists s, p0, rest. rewrite He.
      repeat split; assumption.
    + destruct (String.eqb _ _) eqn:Hm; intros [= <-]; do 3 right;
        exists s, p0, rest; rewrite He; repeat split; assumption.
    + intros [= <-]. do 3 right. exists s, p0, rest. rewrite He.
      repeat split; assumption.
    + intros [= <-]. right. right. left. exists s, name. repeat split; assumption.
  - intros [= <-]. right. left. exists s. repeat split; assumption.
Qed.

(** With a first parameter to index, a dispatch panics on an empty
    answer of the interpreter and on nothing else. *)
Lemma runStepFunc_panics (db : World) (endpoint : Endpoint) (maxUnits : Z)
    (method : string) (p0 : Param) (rest : list Param) (resp : Response) (p : panic) :
  runStepFunc db endpoint maxUnits method (p0 :: rest) resp = Panics p ->
  p = IndexOutOfRange 0 0
  /\ is_call endpoint method
  /\ exists id db' id' balance,
       ids_ToID (Param_Value p0) = inr id
       /\ programExecuteFunc db id rest method (call_budget endpoint maxUnits)
          = (db', inr (id', [], balance)).
Proof.
  unfold runStepFunc, runStepFunc_switch.
  destruct endpoint.
  - repeat case_match; discriminate.
  - destruct (String.eqb method ProgramCreate) eqn:Hm.
    + repeat case_match; discriminate.
    + destruct (ids_ToID (Param_Value p0)) as [e|id] eqn:Hid; [discriminate|].
      change (skipn 1 (p0 :: rest)) with rest.
      destruct (programExecuteFunc _ _ _ _ _) as [db' [e|[[id' response] balance]]] eqn:Hx;
        [discriminate|].
      destruct (Nat.ltb 1 (length response)); [discriminate|].
      destruct response as [|res response]; [|discriminate].
      intros [= <-]. split; [reflexivity|]. split.
      * right. split; [reflexivity|]. now apply String.eqb_neq.
      * exists id, db', id', balance. auto.
  - destruct (ids_ToID (Param_Value p0)) as [e|id] eqn:Hid; [discriminate|].
    change (skipn 1 (p0 :: rest)) with rest.
    destruct (programExecuteFunc _ _ _ _ _) as [db' [e|[[id' response] balance]]] eqn:Hx;
      [discriminate|].
    destruct (Nat.ltb 1 (length response)); [discriminate|].
    destruct response as [|res response]; [|discriminate].
    intros [= <-]. split; [reflexivity|]. split.
    * now left.
    * exists id, db', id', balance. auto.
  - discriminate.
Qed.

(** X14: after [Verify] and [createCallParams] the dispatcher finds the
    first parameter it indexes, and a dispatch panics in one case only:
    a call step whose interpreter has answered, without an error, with
    no result payload at all.  Key steps and program creations do not
    panic. *)
Theorem verified_dispatch_panics_only_on_empty_answer (c : runCmd) (db : World)
    (s : Step) (params : list Param) (resp : Response) (p : panic) :
  step c = Some s ->
  Verify c = Ok () ->
  createCallParams c db (default [] (Step_Params s)) (Step_Endpoint s) = Ok params ->
  runStepFunc db (Step_Endpoint s) (Step_MaxUnits s) (Step_Method s) params resp
    = Panics p ->
  p = IndexOutOfRange 0 0
  /\ is_call (Step_Endpoint s) (Step_Method s)
  /\ exists p0 rest id db' id' balance,
       params = p0 :: rest
       /\ ids_ToID (Param_Value p0) = inr id
       /\ programExecuteFunc db id rest (Step_Method s)
            (call_budget (Step_Endpoint s) (Step_MaxUnits s))
          = (db', inr (id', [], balance)).
Proof.
  intros Hs HV Hp.
  destruct (Verify_ok_params c HV) as (s' & q0 & qrest & Hs' & Hq).
  rewrite Hs in Hs'. injection Hs' as <-. rewrite Hq in Hp.
  unfold default in Hp. cbn [from_option id] in Hp.
  apply createCallParams_length in Hp.
  destruct params as [|p0 rest]; [discriminate|]. clear Hp.
  intros Hd. destruct (runStepFunc_panics _ _ _ _ _ _ _ _ Hd)
    as (-> & Hcall & id & db' & id' & balance & Hid & Hx).
  split; [reflexivity|]. split; [exact Hcall|].
  exists p0, rest, id, db', id', balance. auto.
Qed.



End ValidationFacts.

(** ** The address of a named key, and the random identifier *)

Section Addresses.
Context {collab : Collaborators}.

Lemma skipn_repeat_zero (n m : nat) :
  skipn m (repeat x00 n) = repeat x00 (n - m).
Proof.
  revert m. induction n as [|n IH]; intros [|m]; cbn [repeat skipn Nat.sub];
    try reflexivity. apply IH.
Qed.

(** The address of a key of any length: the key cut to fit, or padded
    with zero bytes. *)
Lemma key_address_bytes (pk : PublicKey) (address : list byte) :
  key_address pk = Ok address ->
  address = x00 :: firstn (AddressLen - 1) pk
                ++ repeat x00 (AddressLen - 1 - length pk).
Proof.
  unfold key_address. destruct AddressLen as [|n]; cbn [repeat]; [discriminate|].
  intros [= <-]. unfold Go.copy. rewrite repeat_length, skipn_repeat_zero.
  now replace (S n - 1)%nat with n by lia.
Qed.

(** X15: a KeyEd25519 parameter whose name the store knows is replaced by
    the address of the key for every endpoint, the Key endpoint included:
    in a list that resolves, the value at its place has
    [codec.AddressLen] bytes, the byte 0 first, then the key's bytes, cut
    to fit or padded with zero bytes. *)
Theorem named_key_address_shape (c : runCmd) (db : World) (endpoint : Endpoint)
    (pre post cp_pre cp : list Param) (value : list byte) (pk : PublicKey) :
  storage_GetPublicKey db (Go.string_of_bytes value) = inr (Some pk) ->
  createCallParams c db pre endpoint = Ok cp_pre ->
  createCallParams c db
    (pre ++ {| Param_Type := ParamType.KeyEd25519; Param_Value := value |} :: post)
    endpoint = Ok cp ->
  exists address rest,
    cp = cp_pre ++ {| Param_Type := ParamType.KeyEd25519; Param_Value := address |}
                :: rest
    /\ length address = AddressLen
    /\ address = x00 :: firstn (AddressLen - 1) pk
                     ++ repeat x00 (AddressLen - 1 - length pk).
Proof.
  intros Hpk Hpre. rewrite (createCallParams_app c db endpoint pre _ post cp_pre Hpre).
  unfold resolveParam. cbn [Param_Type Param_Value]. rewrite Hpk.
  destruct (key_address pk) as [address| |] eqn:Ha; try discriminate.
  cbn [mbind exec_bind]. rewrite bytes_of_string_of_bytes.
  destruct (createCallParams c db post endpoint) as [rest| |]; try discriminate.
  cbn [mbind exec_bind]. intros [= <-]. exists address, rest.
  split; [reflexivity|]. split.
  - now apply key_address_shape in Ha.
  - now apply key_address_bytes.
Qed.

(** X16: [generateRandomID] returns the 32 bytes the random source wrote,
    or the source's error next to the empty identifier: as the source
    cannot change the length of the buffer, [ids.ToID] never fails
    there. *)
Theorem generateRandomID_result (rand_Read : list byte -> list byte * option error) :
  (forall b, length (fst (rand_Read b)) = length b) ->
  match generateRandomID rand_Read with
  | (id, None) =>
      rand_Read (repeat x00 32) = (id, None) /\ length id = 32%nat
  | (id, Some e) =>
      id = ids_Empty /\ snd (rand_Read (repeat x00 32)) = Some e
  end.
Proof.
  intros Hlen. unfold generateRandomID. specialize (Hlen (repeat x00 32)).
  destruct (rand_Read (repeat x00 32)) as [key [e|]]; [now split|].
  cbn [fst] in Hlen. rewrite repeat_length in Hlen.
  unfold ids_ToID. rewrite Hlen. now cbn.
Qed.

End Addresses.

(** [runStepFunc_timestamp] on the creation of the program of
    [./mod.bin]: the clock shows 1700000000 at entry and 1700000001 when
    the loader is done. *)
Lemma runStepFunc_timestamp_witness :
  let params := [{| Param_Type := ParamType.String;
                    Param_Value := Go.bytes_of_string "./mod.bin" |}] in
  let resp' := setTimestamp (setTimestamp (setTxID (newResponse 0) (ID_String Sim.prog))
                                          1700000001) 1700000000 in
  runStepFunc Sim.w0 EndpointExecute 0 "program create" params (newResponse 0)
    = Returns (Sim.w_prog, resp', None)
  /\ Resp_Timestamp resp' = time_Now_Unix Sim.w0
  /\ time_Now_Unix Sim.w_prog = 1700000001.
Proof.
  intros params resp'.
  assert (H : runStepFunc Sim.w0 EndpointExecute 0 "program create" params (newResponse 0)
              = Returns (Sim.w_prog, resp', None)) by reflexivity.
  split; [exact H|]. split; [|reflexivity].
  exact (proj1 (runStepFunc_timestamp (collab := Sim.collab) _ _ _ _ _ _ _ _ _ H)).
Defined.

(** [RunStep_failed_response] on the call of a program the store does not
    hold. *)
Lemma RunStep_failed_response_witness :
  let c := Sim.loaded (Sim.call EndpointExecute [Sim.u64 "7"]) in
  let resp := setError (setTimestamp (newResponse 1) 1700000000)
                       (External [] "unknown program") in
  Resp_Msg resp = None /\ Resp_TxID resp = None /\ Resp_Response resp = None
  /\ Resp_Balance resp = None /\ Resp_ID resp = lastStep c
  /\ ran_err {| ran_cmd := with_step
                             {| lastStep := 2; file := file c; planStep := planStep c;
                                step := step c; programIDStrMap := programIDStrMap c |}
                             (step c);
                ran_db := Sim.w0; ran_resp := Some resp; ran_err := None |} = None.
Proof.
  intros c resp.
  exact (RunStep_failed_response (collab := Sim.collab) c Sim.w0 _ resp
           (External [] "unknown program") eq_refl eq_refl eq_refl).
Defined.

(** [RunStep_ledger_frame] on a ReadOnly call that succeeds: the table is
    as it was. *)
Lemma RunStep_ledger_frame_witness :
  let c := Sim.loaded (Sim.call EndpointReadOnly [Sim.u64 "7"]) in
  exists r,
    RunStep c Sim.w_prog = Returns r
    /\ ran_err r = None
    /\ programIDStrMap (ran_cmd r) = programIDStrMap c.
Proof.
  intros c.
  destruct (RunStep (collab := Sim.collab) c Sim.w_prog) as [r|p] eqn:HR;
    [|discriminate HR].
  exists r. split; [reflexivity|].
  split; [now injection HR as <-|].
  apply (proj1 (proj2 (RunStep_ledger_frame (collab := Sim.collab) c Sim.w_prog r HR))
           (Sim.call EndpointReadOnly [Sim.u64 "7"]) eq_refl).
  discriminate.
Defined.

(** [recorded_identifier_is_referable] on the creation of the program of
    [./mod.bin] as step 0: [step_0] then resolves to its identifier. *)
Lemma recorded_identifier_is_referable_witness :
  let c := with_step (Sim.fresh "" "") (Some Sim.create_mod) in
  exists r,
    RunStep c Sim.w0 = Returns r
    /\ programIDStrMap (ran_cmd r) = <[0 := Sim.prog]> ∅
    /\ createCallParams (ran_cmd r) (ran_db r) [step_reference ParamType.ID [0%nat]]
                        EndpointReadOnly
       = Ok [{| Param_Type := ParamType.ID; Param_Value := Sim.prog |}].
Proof.
  intros c.
  edestruct (recorded_identifier_is_referable (collab := Sim.collab) c Sim.w0)
    as (r & p0 & rest & id & HR & _ & _ & Hparams & Hfrom & Hmap & Href).
  - intros id. cbn. f_equal. apply bytes_of_string_of_bytes.
  - reflexivity.
  - reflexivity.
  - reflexivity.
  - reflexivity.
  - injection Hparams as <- <-. cbn in Hfrom. injection Hfrom as <-.
    exists r. split; [exact HR|]. split; [exact Hmap|].
    apply Href; [now right | split; [discriminate | repeat constructor]
                 | reflexivity | reflexivity].
Defined.

(** [Run_error_or_advance] on the Key step for [alice], and on a plan text
    that does not decode. *)
Lemma Run_error_or_advance_witness :
  (exists r resp,
     Run (Sim.fresh "{endpoint: key, method: create, params: [{type: ed25519, value: alice}]}" "")
         Sim.w0 = Returns r
     /\ ran_err r = None /\ lastStep (ran_cmd r) = 1
     /\ ran_resp r = Some resp /\ Resp_ID resp = 0)
  /\ (exists r e,
        Run (Sim.fresh "endpoint" "") Sim.w0 = Returns r
        /\ ran_err r = Some e /\ lastStep (ran_cmd r) = 0
        /\ ran_resp r = Some (newResponse 0)).
Proof.
  split.
  - destruct (Run (collab := Sim.collab) (Sim.fresh _ "") Sim.w0) as [r|p] eqn:HR;
      [|discriminate HR].
    pose proof (Run_error_or_advance (collab := Sim.collab) _ _ r HR) as H.
    assert (He : ran_err r = None) by now injection HR as <-.
    rewrite He in H. destruct H as (Hadv & resp & Hresp & Hid).
    exists r, resp. repeat split; assumption.
  - destruct (Run (collab := Sim.collab) (Sim.fresh "endpoint" "") Sim.w0)
      as [r|p] eqn:HR; [|discriminate HR].
    pose proof (Run_error_or_advance (collab := Sim.collab) _ _ r HR) as H.
    assert (He : ran_err r = Some (External [] "cannot unmarshal the step"))
      by now injection HR as <-.
    rewrite He in H. destruct H as (Hresp & Hstep & _).
    exists r, (External [] "cannot unmarshal the step"). repeat split; assumption.
Defined.

(** [Verify_error_kinds] on a step with an endpoint that is not known. *)
Lemma Verify_error_kinds_witness :
  let s := {| Step_Endpoint := EndpointOther "bogus"; Step_Method := "create";
              Step_MaxUnits := 0; Step_Params := Some [Sim.u64 "7"] |} in
  let c := with_step (Sim.fresh "" "") (Some s) in
  Verify c = Err (InvalidEndpoint (EndpointOther "bogus"))
  /\ errors_Is (InvalidEndpoint (EndpointOther "bogus")) ErrInvalidEndpoint = true
  /\ errors_Is (InvalidEndpoint (EndpointOther "bogus")) ErrInvalidStep = false.
Proof.
  intros s c.
  assert (HV : Verify c = Err (InvalidEndpoint (EndpointOther "bogus"))) by reflexivity.
  split; [exact HV|].
  destruct (Verify_error_kinds (collab := Sim.collab) c _ HV)
    as [[Hs _] | [(s0 & _ & Hp & _) | [(s0 & name & _ & _ & _ & H1 & H2) | H]]].
  - discriminate Hs.
  - split; reflexivity.
  - split; assumption.
  - split; reflexivity.
Defined.

(** [verified_dispatch_panics_only_on_empty_answer] on a ReadOnly call
    without arguments: the stored program answers with no payload. *)
Lemma verified_dispatch_panics_only_on_empty_answer_witness :
  let s := Sim.call EndpointReadOnly [] in
  let c := Sim.loaded s in
  IndexOutOfRange 0 0 = IndexOutOfRange 0 0
  /\ is_call (Step_Endpoint s) (Step_Method s)
  /\ exists p0 rest id db' id' balance,
       [{| Param_Type := ParamType.ID; Param_Value := Sim.prog |}] = p0 :: rest
       /\ ids_ToID (Param_Value p0) = inr id
       /\ programExecuteFunc Sim.w_prog id rest (Step_Method s)
            (call_budget (Step_Endpoint s) (Step_MaxUnits s))
          = (db', inr (id', [], balance)).
Proof.
  intros s c.
  exact (verified_dispatch_panics_only_on_empty_answer (collab := Sim.collab) c Sim.w_prog
           s [{| Param_Type := ParamType.ID; Param_Value := Sim.prog |}] (newResponse 1)
           (IndexOutOfRange 0 0) eq_refl eq_refl eq_refl eq_refl).
Defined.

(** [named_key_address_shape] on the name [alice] after its key was
    created, for the Key endpoint. *)
Lemma named_key_address_shape_witness :
  let w1 := fst (Sim.createNamedKey Sim.w0 "alice") in
  let address := x00 :: Sim.mint 0 in
  exists address' rest,
    [{| Param_Type := ParamType.KeyEd25519; Param_Value := address |}]
    = [] ++ {| Param_Type := ParamType.KeyEd25519; Param_Value := address' |} :: rest
    /\ length address' = 33%nat
    /\ address' = x00 :: firstn (33 - 1) (Sim.mint 0)
                      ++ repeat x00 (33 - 1 - length (Sim.mint 0)).
Proof.
  intros w1 address.
  exact (named_key_address_shape (collab := Sim.collab) (Sim.fresh "" "") w1 EndpointKey
           [] [] [] _ (Go.bytes_of_string "alice") (Sim.mint 0)
           eq_refl eq_refl eq_refl).
Defined.

(** [generateRandomID_result] with a source that writes the byte [A]
    everywhere. *)
Lemma generateRandomID_result_witness :
  let source := fun b : list byte => (map (fun _ => "A"%byte) b, @None error) in
  source (repeat x00 32) = (repeat "A"%byte 32, None)
  /\ length (repeat "A"%byte 32) = 32%nat.
Proof.
  intros source.
  exact (generateRandomID_result source (fun b => length_map _ b)).
Defined.

(** ** ReadOnly beside Execute, and steps that record nothing *)

Section Siblings.
Context {collab : Collaborators}.

(** X18: a ReadOnly step does what an Execute call with the budget
    [math.MaxUint64] does: the interpreter gets the same arguments, the
    store afterwards is the same (the call is not kept from writing),
    the error or the panic is the same, and so are the result and the
    timestamp on the response.  ReadOnly leaves out the identifier and
    the balance, and nothing else. *)
Theorem readonly_mirrors_execute (db : World) (maxUnits : Z) (method : string)
    (params : list Param) (resp : Response) :
  String.eqb method ProgramCreate = false ->
  match runStepFunc db EndpointReadOnly maxUnits method params resp,
        runStepFunc db EndpointExecute Go.maxUint64 method params resp with
  | Returns (db1, r1, e1), Returns (db2, r2, e2) =>
      db1 = db2 /\ e1 = e2
      /\ Resp_Response r1 = Resp_Response r2 /\ Resp_Timestamp r1 = Resp_Timestamp r2
      /\ Resp_Msg r1 = Resp_Msg r2 /\ Resp_Error r1 = Resp_Error r2
      /\ Resp_ID r1 = Resp_ID r2
      /\ Resp_TxID r1 = Resp_TxID resp /\ Resp_Balance r1 = Resp_Balance resp
  | Panics p1, Panics p2 => p1 = p2
  | _, _ => False
  end.
Proof.
  intros Hm. unfold runStepFunc, runStepFunc_switch. rewrite Hm.
  destruct params as [|p0 rest]; [reflexivity|].
  destruct (ids_ToID (Param_Value p0)) as [e|id]; [now repeat split|].
  destruct (programExecuteFunc _ _ _ _ _) as [db' [e|[[id' response] balance]]];
    [now repeat split|].
  destruct (Nat.ltb 1 (length response)); [now repeat split|].
  destruct response as [|[res|] ?]; [reflexivity| |]; now repeat split.
Qed.

Lemma RunStep_non_execute_ledger (c : runCmd) (db : World) (s : Step) (r : ran) :
  RunStep c db = Returns r ->
  step c = Some s ->
  Step_Endpoint s <> EndpointExecute ->
  programIDStrMap (ran_cmd r) = programIDStrMap c
  /\ (lastStep (ran_cmd r) = lastStep c
      \/ lastStep (ran_cmd r) = Go.wrap_int (lastStep c + 1)).
Proof.
  unfold RunStep. intros HR Hs Hne. rewrite Hs in HR.
  destruct (createCallParams _ _ _ _) as [params| |]; try discriminate;
    [|injection HR as <-; auto].
  destruct (runStepFunc _ _ _ _ _ _) as [[[db' resp1] err]|] eqn:Hd; [|discriminate].
  destruct (runStepFunc_txid _ _ _ _ _ _ _ _ _ Hd) as [(He & _) | Htx]; [congruence|].
  cbn in Htx. unfold getTxID in HR.
  assert (Htx' : Resp_TxID (match err with Some e => setError resp1 e | None => resp1 end)
                 = None) by now destruct err.
  rewrite Htx' in HR. injection HR as <-. cbn. auto.
Qed.

(** X19: a step that is not an Execute step records nothing, so a later
    reference to its index fails: after a Key or a ReadOnly step at index
    [N] has run on a table that held entries for earlier steps only,
    [step_N] resolves to the failed-to-map error. *)
Theorem unrecorded_step_is_not_referable (c : runCmd) (db db2 : World) (s : Step)
    (r : ran) (endpoint : Endpoint) (pre post cp_pre : list Param)
    (t : ParamType.t) (ds : list nat) :
  RunStep c db = Returns r ->
  step c = Some s ->
  Step_Endpoint s <> EndpointExecute ->
  ledger_below c ->
  lastStep c < 2 ^ 31 ->
  t = ParamType.String \/ t = ParamType.ID ->
  is_digits ds ->
  decimal_value ds = lastStep c ->
  createCallParams (ran_cmd r) db2 pre endpoint = Ok cp_pre ->
  createCallParams (ran_cmd r) db2 (pre ++ step_reference t ds :: post) endpoint
  = Err (FailedToMap ("step_" +:+ numeral ds)).
Proof.
  intros HR Hs Hne Hbelow Hlt Ht Hds Hv Hpre.
  destruct (RunStep_non_execute_ledger c db s r HR Hs Hne) as (Hmap & _).
  rewrite (createCallParams_app _ _ _ pre _ post cp_pre Hpre).
  rewrite (resolveParam_step_reference _ _ _ t ds Ht Hds), Hmap, Hv.
  change (2 ^ 31) with 2147483648 in Hlt.
  destruct (Z.ltb_spec (lastStep c) 2147483648); [|lia].
  destruct (programIDStrMap c !! lastStep c) eqn:E; [|reflexivity].
  apply Hbelow in E. lia.
Qed.

End Siblings.


(** [readonly_mirrors_execute] on a call of the stored program with one
    argument. *)
Lemma readonly_mirrors_execute_witness :
  let params := [{| Param_Type := ParamType.ID; Param_Value := Sim.prog |}; Sim.u64 "7"] in
  match runStepFunc Sim.w_prog EndpointReadOnly 1000 "echo" params (newResponse 1),
        runStepFunc Sim.w_prog EndpointExecute Go.maxUint64 "echo" params (newResponse 1) with
  | Returns (db1, r1, e1), Returns (db2, r2, e2) =>
      db1 = db2 /\ e1 = e2
      /\ Resp_Response r1 = Resp_Response r2 /\ Resp_Timestamp r1 = Resp_Timestamp r2
      /\ Resp_Msg r1 = Resp_Msg r2 /\ Resp_Error r1 = Resp_Error r2
      /\ Resp_ID r1 = Resp_ID r2
      /\ Resp_TxID r1 = Resp_TxID (newResponse 1)
      /\ Resp_Balance r1 = Resp_Balance (newResponse 1)
  | Panics p1, Panics p2 => p1 = p2
  | _, _ => False
  end.
Proof.
  intros params.
  exact (readonly_mirrors_execute (collab := Sim.collab) Sim.w_prog 1000 "echo" params
           (newResponse 1) eq_refl).
Defined.

(** [unrecorded_step_is_not_referable] on the Key step for [alice] run as
    step 0: [step_0] does not resolve afterwards. *)
Lemma unrecorded_step_is_not_referable_witness :
  let c := with_step (Sim.fresh "" "") (Some Sim.key_alice) in
  exists r,
    RunStep c Sim.w0 = Returns r
    /\ lastStep (ran_cmd r) = 1
    /\ createCallParams (ran_cmd r) (ran_db r) [step_reference ParamType.ID [0%nat]]
                        EndpointReadOnly
       = Err (FailedToMap "step_0").
Proof.
  intros c.
  destruct (RunStep (collab := Sim.collab) c Sim.w0) as [r|p] eqn:HR; [|discriminate HR].
  exists r. split; [reflexivity|]. split; [now injection HR as <-|].
  apply (unrecorded_step_is_not_referable (collab := Sim.collab) c Sim.w0 (ran_db r)
           Sim.key_alice r EndpointReadOnly [] [] [] ParamType.ID [0%nat] HR eq_refl).
  - discriminate.
  - intros k id Hk. discriminate Hk.
  - reflexivity.
  - now right.
  - split; [discriminate | repeat constructor].
  - reflexivity.
  - reflexivity.
Defined.
